(** * MySurgeon: the row-level security policies and the signup trigger

    A shallow embedding of the database migration of the MySurgeon
    repository (tables, CHECK constraints, row-level security policies and
    the [handle_new_user] trigger) and of the way PostgreSQL applies them,
    followed by the properties of the access-control model. *)

From stdpp Require Import base option list strings gmap.
From Stdlib Require Import ZArith NArith.

Local Open Scope string_scope.
Local Open Scope list_scope.

(** ** SQL values *)

(** A UUID is a 128-bit value; the migration only compares UUIDs. *)
Definition uuid := N.
Bind Scope N_scope with uuid.
Abbreviation text := string.
(** TIMESTAMP WITH TIME ZONE and DATE, as an instant on the time line. *)
Definition timestamptz := Z.
Definition date := Z.
(** DECIMAL(p,2), as a number of hundredths. *)
Definition decimal := Z.
Bind Scope Z_scope with timestamptz date decimal.

(** SQL's three-valued booleans: [None] is NULL. *)
Definition sqlbool := option bool.

Definition sql_eq {A} `{EqDecision A} (a b : option A) : sqlbool :=
  match a, b with
  | Some x, Some y => Some (bool_decide (x = y))
  | _, _ => None
  end.

Definition sql_or (a b : sqlbool) : sqlbool :=
  match a, b with
  | Some true, _ | _, Some true => Some true
  | Some false, Some false => Some false
  | _, _ => None
  end.

Definition sql_and (a b : sqlbool) : sqlbool :=
  match a, b with
  | Some false, _ | _, Some false => Some false
  | Some true, Some true => Some true
  | _, _ => None
  end.

(** [x IN (v1, ..., vn)] is [x = v1 OR ... OR x = vn]. *)
Definition sql_in (a : option text) (vs : list text) : sqlbool :=
  foldr (λ v acc, sql_or (sql_eq a (Some v)) acc) (Some false) vs.

(** A WHERE clause, a USING clause and a CHECK constraint differ on NULL: a
    row passes a filter only when the condition is TRUE, and violates a CHECK
    constraint only when it is FALSE. *)
Definition is_true (b : sqlbool) : bool :=
  match b with Some true => true | _ => false end.

Definition check_passes (b : sqlbool) : bool :=
  match b with Some false => false | _ => true end.

(** A field of a JSONB object as [->>] reads it: a JSON null, or the text of
    any other value (the string itself for a JSON string). *)
Inductive jvalue :=
| JNull
| JText (s : text).

(** A JSONB column holding an object; [None] is a NULL column. *)
Abbreviation jsonb := (option (gmap text jvalue)).

(** [j ->> k]: NULL when [j] is NULL, when the key is missing and when the
    field is a JSON null. *)
Definition json_get_text (j : jsonb) (k : text) : option text :=
  m ← j; v ← m !! k; match v with JNull => None | JText s => Some s end.

(** COALESCE of two arguments, the second of which is a literal. *)
Definition coalesce {A} (a : option A) (b : A) : A := default b a.

(** ** The tables *)

(** The row of auth.users that the trigger reads (NEW.id, NEW.email and
    NEW.raw_user_meta_data); the table belongs to the identity store. *)
Module AuthUser.
Record t := mk {
  id : uuid;
  email : option text;
  raw_user_meta_data : jsonb
}.
End AuthUser.

Module Profile.
Record t := mk {
  id : uuid;
  email : text;
  full_name : text;
  role : text;
  profile_picture_url : option text;
  created_at : option timestamptz;
  updated_at : option timestamptz
}.
End Profile.

Module PatientDetails.
Record t := mk {
  user_id : uuid;
  personal_info : gmap text jvalue;
  physical_info : gmap text jvalue;
  lifestyle_info : gmap text jvalue;
  created_at : option timestamptz;
  updated_at : option timestamptz
}.
End PatientDetails.

Module SurgeonDetails.
Record t := mk {
  user_id : uuid;
  specialty : text;
  hospital_affiliation : text;
  years_of_experience : Z;
  certifications : option (list text);
  bio : option text;
  consultation_fee : option decimal;
  created_at : option timestamptz;
  updated_at : option timestamptz
}.
End SurgeonDetails.

Module VitalSigns.
Record t := mk {
  id : uuid;
  patient_id : uuid;
  heart_rate : Z;
  systolic_bp : Z;
  diastolic_bp : Z;
  body_temperature_celsius : decimal;
  respiratory_rate : Z;
  notes : option text;
  created_at : option timestamptz
}.
End VitalSigns.

Module SurgicalHistory.
Record t := mk {
  id : uuid;
  patient_id : uuid;
  surgeon_id : option uuid;
  procedure_name : text;
  hospital : text;
  surgery_date : date;
  outcome : option text;
  complications : option text;
  notes : option text;
  created_at : option timestamptz
}.
End SurgicalHistory.

Module SurgicalCase.
Record t := mk {
  id : uuid;
  patient_id : uuid;
  surgeon_id : option uuid;
  procedure_name : text;
  scheduled_date : option timestamptz;
  status : text;
  priority : option text;
  estimated_duration_minutes : option Z;
  notes : option text;
  created_at : option timestamptz;
  updated_at : option timestamptz
}.
End SurgicalCase.

Module HistoricalSurgicalData.
Record t := mk {
  id : uuid;
  hospital_id : text;
  week_number : Z;
  year : Z;
  surgical_volume : Z;
  specialty : option text;
  season : option text;
  created_at : option timestamptz
}.
End HistoricalSurgicalData.

(** The tables of schema public. *)
Inductive table :=
| profiles
| patient_details
| surgeon_details
| vital_signs
| surgical_history
| surgical_cases
| historical_surgical_data.

#[global] Instance table_eq_dec : EqDecision table.
Proof. solve_decision. Defined.

Definition row_of (t : table) : Type :=
  match t with
  | profiles => Profile.t
  | patient_details => PatientDetails.t
  | surgeon_details => SurgeonDetails.t
  | vital_signs => VitalSigns.t
  | surgical_history => SurgicalHistory.t
  | surgical_cases => SurgicalCase.t
  | historical_surgical_data => HistoricalSurgicalData.t
  end.

(** The database: auth.users and the seven tables, each a list of rows. *)
Record db := mkdb {
  auth_users : list AuthUser.t;
  db_profiles : list Profile.t;
  db_patient_details : list PatientDetails.t;
  db_surgeon_details : list SurgeonDetails.t;
  db_vital_signs : list VitalSigns.t;
  db_surgical_history : list SurgicalHistory.t;
  db_surgical_cases : list SurgicalCase.t;
  db_historical_surgical_data : list HistoricalSurgicalData.t
}.

Definition rows (d : db) (t : table) : list (row_of t) :=
  match t with
  | profiles => db_profiles d
  | patient_details => db_patient_details d
  | surgeon_details => db_surgeon_details d
  | vital_signs => db_vital_signs d
  | surgical_history => db_surgical_history d
  | surgical_cases => db_surgical_cases d
  | historical_surgical_data => db_historical_surgical_data d
  end.

Definition set_rows (d : db) (t : table) : list (row_of t) → db :=
  match t with
  | profiles => λ l, mkdb (auth_users d) l (db_patient_details d)
      (db_surgeon_details d) (db_vital_signs d) (db_surgical_history d)
      (db_surgical_cases d) (db_historical_surgical_data d)
  | patient_details => λ l, mkdb (auth_users d) (db_profiles d) l
      (db_surgeon_details d) (db_vital_signs d) (db_surgical_history d)
      (db_surgical_cases d) (db_historical_surgical_data d)
  | surgeon_details => λ l, mkdb (auth_users d) (db_profiles d)
      (db_patient_details d) l (db_vital_signs d) (db_surgical_history d)
      (db_surgical_cases d) (db_historical_surgical_data d)
  | vital_signs => λ l, mkdb (auth_users d) (db_profiles d)
      (db_patient_details d) (db_surgeon_details d) l (db_surgical_history d)
      (db_surgical_cases d) (db_historical_surgical_data d)
  | surgical_history => λ l, mkdb (auth_users d) (db_profiles d)
      (db_patient_details d) (db_surgeon_details d) (db_vital_signs d) l
      (db_surgical_cases d) (db_historical_surgical_data d)
  | surgical_cases => λ l, mkdb (auth_users d) (db_profiles d)
      (db_patient_details d) (db_surgeon_details d) (db_vital_signs d)
      (db_surgical_history d) l (db_historical_surgical_data d)
  | historical_surgical_data => λ l, mkdb (auth_users d) (db_profiles d)
      (db_patient_details d) (db_surgeon_details d) (db_vital_signs d)
      (db_surgical_history d) (db_surgical_cases d) l
  end.

(** The primary key of a row. *)
Definition pkey (t : table) : row_of t → uuid :=
  match t with
  | profiles => Profile.id
  | patient_details => PatientDetails.user_id
  | surgeon_details => SurgeonDetails.user_id
  | vital_signs => VitalSigns.id
  | surgical_history => SurgicalHistory.id
  | surgical_cases => SurgicalCase.id
  | historical_surgical_data => HistoricalSurgicalData.id
  end.

(** ** The row-level security policies *)

(** The command a policy is created FOR, and the operation a query performs. *)
Inductive command := FOR_SELECT | FOR_INSERT | FOR_UPDATE | FOR_DELETE | FOR_ALL.
Inductive operation := Select | Insert | Update | Delete.

#[global] Instance operation_eq_dec : EqDecision operation.
Proof. solve_decision. Defined.

(** A policy expression: a condition on the database, on the result of
    [auth.uid()] (NULL for a caller who is not signed in) and on the row. *)
Definition qual (t : table) : Type := db → option uuid → row_of t → sqlbool.

(** A policy: its name, its command, its USING expression ([polqual]) and
    its WITH CHECK expression ([polwithcheck]) where it has them, and the
    tables its subqueries select from. *)
Record policy (t : table) := mkpolicy {
  polname : string;
  polcmd : command;
  polqual : option (qual t);
  polwithcheck : option (qual t);
  sublinks : list table
}.
Arguments mkpolicy {t}.
Arguments polname {t}.
Arguments polcmd {t}.
Arguments polqual {t}.
Arguments polwithcheck {t}.
Arguments sublinks {t}.

(** [WHERE id = auth.uid() AND cond] on a row of [profiles]. *)
Definition profile_matches (uid : option uuid) (cond : Profile.t → sqlbool)
    (p : Profile.t) : bool :=
  is_true (sql_and (sql_eq (Some (Profile.id p)) uid) (cond p)).

(** [EXISTS (SELECT 1 FROM public.profiles WHERE id = auth.uid() AND cond)]:
    whether some row of [profiles] has the caller's id and meets [cond]. The
    subquery is evaluated on the rows of the table; what becomes of it when
    PostgreSQL puts the policies of [profiles] on it is [expand_policies]
    below. *)
Definition exists_profile (d : db) (uid : option uuid)
    (cond : Profile.t → sqlbool) : sqlbool :=
  Some (existsb (profile_matches uid cond) (db_profiles d)).

Definition role_is (r : text) (p : Profile.t) : sqlbool :=
  sql_eq (Some (Profile.role p)) (Some r).

Definition role_in (rs : list text) (p : Profile.t) : sqlbool :=
  sql_in (Some (Profile.role p)) rs.

(** [auth.uid() = col]. *)
Definition uid_is {t} (col : row_of t → option uuid) : qual t :=
  λ _ uid r, sql_eq uid (col r).

Definition caller_role_is {t} (r : text) : qual t :=
  λ d uid _, exists_profile d uid (role_is r).

Definition caller_role_in {t} (rs : list text) : qual t :=
  λ d uid _, exists_profile d uid (role_in rs).

Definition profiles_policies : list (policy profiles) :=
  [ mkpolicy "Users can view their own profile" FOR_SELECT
      (Some (uid_is (t:=profiles) (λ r, Some (Profile.id r)))) None [];
    mkpolicy "Users can update their own profile" FOR_UPDATE
      (Some (uid_is (t:=profiles) (λ r, Some (Profile.id r)))) None [];
    mkpolicy "Users can insert their own profile" FOR_INSERT
      None (Some (uid_is (t:=profiles) (λ r, Some (Profile.id r)))) [];
    mkpolicy "Surgeons can view other profiles" FOR_SELECT
      (Some (caller_role_is "surgeon")) None [profiles];
    mkpolicy "Admins can view all profiles" FOR_ALL
      (Some (caller_role_is "admin")) None [profiles] ].

Definition patient_details_policies : list (policy patient_details) :=
  [ mkpolicy "Patients can manage their own details" FOR_ALL
      (Some (uid_is (t:=patient_details) (λ r, Some (PatientDetails.user_id r))))
      None [];
    mkpolicy "Surgeons can view patient details" FOR_SELECT
      (Some (caller_role_in ["surgeon"; "admin"])) None [profiles] ].

Definition surgeon_details_policies : list (policy surgeon_details) :=
  [ mkpolicy "Surgeons can manage their own details" FOR_ALL
      (Some (uid_is (t:=surgeon_details) (λ r, Some (SurgeonDetails.user_id r))))
      None [];
    mkpolicy "Public can view surgeon details" FOR_SELECT
      (Some (λ _ _ _, Some true)) None [] ].

Definition vital_signs_policies : list (policy vital_signs) :=
  [ mkpolicy "Patients can view their own vital signs" FOR_SELECT
      (Some (uid_is (t:=vital_signs) (λ r, Some (VitalSigns.patient_id r))))
      None [];
    mkpolicy "Patients can insert their own vital signs" FOR_INSERT
      None
      (Some (uid_is (t:=vital_signs) (λ r, Some (VitalSigns.patient_id r))))
      [];
    mkpolicy "Healthcare providers can manage vital signs" FOR_ALL
      (Some (caller_role_in ["surgeon"; "admin"])) None [profiles] ].

Definition surgical_history_policies : list (policy surgical_history) :=
  [ mkpolicy "Patients can view their own surgical history" FOR_SELECT
      (Some (uid_is (t:=surgical_history)
               (λ r, Some (SurgicalHistory.patient_id r))))
      None [];
    mkpolicy "Surgeons can view and manage surgical history" FOR_ALL
      (Some (caller_role_in ["surgeon"; "admin"])) None [profiles] ].

Definition surgical_cases_policies : list (policy surgical_cases) :=
  [ mkpolicy "Patients can view their own cases" FOR_SELECT
      (Some (uid_is (t:=surgical_cases) (λ r, Some (SurgicalCase.patient_id r))))
      None [];
    mkpolicy "Surgeons can manage their cases" FOR_ALL
      (Some (λ d uid r,
         sql_or (uid_is (t:=surgical_cases) SurgicalCase.surgeon_id d uid r)
                (caller_role_is (t:=surgical_cases) "admin" d uid r)))
      None [profiles] ].

Definition historical_surgical_data_policies
    : list (policy historical_surgical_data) :=
  [ mkpolicy "Admins can manage historical data" FOR_ALL
      (Some (caller_role_is "admin")) None [profiles];
    mkpolicy "Surgeons can view historical data" FOR_SELECT
      (Some (caller_role_in ["surgeon"; "admin"])) None [profiles] ].

(** Every table has row-level security enabled; these are its policies, all
    of them permissive. *)
Definition policies (t : table) : list (policy t) :=
  match t with
  | profiles => profiles_policies
  | patient_details => patient_details_policies
  | surgeon_details => surgeon_details_policies
  | vital_signs => vital_signs_policies
  | surgical_history => surgical_history_policies
  | surgical_cases => surgical_cases_policies
  | historical_surgical_data => historical_surgical_data_policies
  end.

(** ** How the policies decide *)

(** A policy applies to an operation when it was created for that command
    or FOR ALL. *)
Definition applies (c : command) (op : operation) : bool :=
  match c, op with
  | FOR_ALL, _
  | FOR_SELECT, Select
  | FOR_INSERT, Insert
  | FOR_UPDATE, Update
  | FOR_DELETE, Delete => true
  | _, _ => false
  end.

Definition applicable (t : table) (op : operation) : list (policy t) :=
  List.filter (λ p, applies (polcmd p) op) (policies t).

(** The expression a policy contributes for rows that already exist (its
    USING clause) and for rows a command writes (its WITH CHECK clause, and
    its USING clause when it has no WITH CHECK). *)
Definition using_of {t} (p : policy t) : option (qual t) := polqual p.

Definition check_of {t} (p : policy t) : option (qual t) :=
  match polwithcheck p with
  | Some q => Some q
  | None => polqual p
  end.

(** The expression of a policy for an operation on a row: SELECT, UPDATE and
    DELETE look at the existing row, INSERT at the new one. *)
Definition predicate {t} (op : operation) (p : policy t) : option (qual t) :=
  match op with
  | Insert => check_of p
  | _ => using_of p
  end.

(** Permissive policies are combined with OR; with no policy the condition
    is FALSE. *)
Definition any_qual {t} (qs : list (qual t)) : qual t :=
  λ d uid r, foldr (λ q acc, sql_or (q d uid r) acc) (Some false) qs.

(** The verdict of the policies for an operation on a row: whether some
    policy that applies is TRUE. A command gets to it once its policies have
    been expanded ([expand_command] below). *)
Definition accessible (t : table) (op : operation)
    (d : db) (uid : option uuid) (r : row_of t) : bool :=
  is_true (any_qual (omap (predicate op) (applicable t op)) d uid r).

(** The same for the row an INSERT or UPDATE writes. *)
Definition writable (t : table) (op : operation)
    (d : db) (uid : option uuid) (r : row_of t) : bool :=
  is_true (any_qual (omap check_of (applicable t op)) d uid r).

(** ** Errors and results *)

Inductive db_error :=
| not_null_violation (column : string)
| check_violation (constraint : string)
| unique_violation (constraint : string)
| foreign_key_violation (constraint : string)
(** "new row violates row-level security policy for table ..." *)
| insufficient_privilege (t : table)
(** "infinite recursion detected in policy for relation ..." *)
| infinite_recursion (t : table)
(** "integer out of range" and "numeric field overflow" *)
| numeric_value_out_of_range.

Inductive result (A : Type) :=
| Ok (a : A)
| Err (e : db_error).
Arguments Ok {A}.
Arguments Err {A}.

#[global] Instance result_ret : MRet result := λ A a, Ok a.
#[global] Instance result_bind : MBind result := λ A B f m,
  match m with
  | Ok a => f a
  | Err e => Err e
  end.

Definition require (b : bool) (e : db_error) : result () :=
  if b then Ok () else Err e.

(** ** The constraints of the tables *)

Definition table_name (t : table) : string :=
  match t with
  | profiles => "profiles"
  | patient_details => "patient_details"
  | surgeon_details => "surgeon_details"
  | vital_signs => "vital_signs"
  | surgical_history => "surgical_history"
  | surgical_cases => "surgical_cases"
  | historical_surgical_data => "historical_surgical_data"
  end.

Definition allowed_roles : list text := ["patient"; "surgeon"; "admin"].

(** CHECK (role IN ('patient', 'surgeon', 'admin')) *)
Definition role_check (role : option text) : sqlbool :=
  sql_in role allowed_roles.

(** CHECK (status IN ('proposed', 'scheduled', 'in_progress', 'completed',
    'cancelled')) *)
Definition status_check (status : option text) : sqlbool :=
  sql_in status
    ["proposed"; "scheduled"; "in_progress"; "completed"; "cancelled"].

(** CHECK (priority IN ('low', 'medium', 'high', 'emergency')) *)
Definition priority_check (priority : option text) : sqlbool :=
  sql_in priority ["low"; "medium"; "high"; "emergency"].

(** CHECK (season IN ('spring', 'summer', 'fall', 'winter')) *)
Definition season_check (season : option text) : sqlbool :=
  sql_in season ["spring"; "summer"; "fall"; "winter"].

(** The CHECK constraints of a table are tested in the order of their
    names: on surgical_cases, surgical_cases_priority_check comes before
    surgical_cases_status_check. *)
Definition check_constraints (t : table) : row_of t → result () :=
  match t with
  | profiles => λ r,
      require (check_passes (role_check (Some (Profile.role r))))
        (check_violation "profiles_role_check")
  | surgical_cases => λ r,
      _ ← require (check_passes (priority_check (SurgicalCase.priority r)))
            (check_violation "surgical_cases_priority_check");
      require (check_passes (status_check (Some (SurgicalCase.status r))))
        (check_violation "surgical_cases_status_check")
  | historical_surgical_data => λ r,
      require (check_passes (season_check (HistoricalSurgicalData.season r)))
        (check_violation "historical_surgical_data_season_check")
  | _ => λ _, Ok ()
  end.

(** PRIMARY KEY on every table and UNIQUE on profiles.email, against the
    other rows of the table. *)
Definition unique_constraints (t : table)
    : list (row_of t) → row_of t → result () :=
  match t with
  | profiles => λ others r,
      _ ← require (bool_decide (Profile.id r ∉ Profile.id <$> others))
            (unique_violation "profiles_pkey");
      require (bool_decide (Profile.email r ∉ Profile.email <$> others))
        (unique_violation "profiles_email_key")
  | t => λ others r,
      require (bool_decide (pkey t r ∉ pkey t <$> others))
        (unique_violation (table_name t +:+ "_pkey"))
  end.

Definition profile_exists (d : db) (k : uuid) : bool :=
  bool_decide (k ∈ Profile.id <$> db_profiles d).

Definition optional_profile_exists (d : db) (k : option uuid) : bool :=
  match k with
  | None => true
  | Some k => profile_exists d k
  end.

(** REFERENCES auth.users(id) and REFERENCES public.profiles(id). *)
Definition foreign_keys (t : table) (d : db) : row_of t → result () :=
  match t with
  | profiles => λ r,
      require (bool_decide (Profile.id r ∈ AuthUser.id <$> auth_users d))
        (foreign_key_violation "profiles_id_fkey")
  | patient_details => λ r,
      require (profile_exists d (PatientDetails.user_id r))
        (foreign_key_violation "patient_details_user_id_fkey")
  | surgeon_details => λ r,
      require (profile_exists d (SurgeonDetails.user_id r))
        (foreign_key_violation "surgeon_details_user_id_fkey")
  | vital_signs => λ r,
      require (profile_exists d (VitalSigns.patient_id r))
        (foreign_key_violation "vital_signs_patient_id_fkey")
  | surgical_history => λ r,
      _ ← require (profile_exists d (SurgicalHistory.patient_id r))
            (foreign_key_violation "surgical_history_patient_id_fkey");
      require (optional_profile_exists d (SurgicalHistory.surgeon_id r))
        (foreign_key_violation "surgical_history_surgeon_id_fkey")
  | surgical_cases => λ r,
      _ ← require (profile_exists d (SurgicalCase.patient_id r))
            (foreign_key_violation "surgical_cases_patient_id_fkey");
      require (optional_profile_exists d (SurgicalCase.surgeon_id r))
        (foreign_key_violation "surgical_cases_surgeon_id_fkey")
  | historical_surgical_data => λ _, Ok ()
  end.

(** The constraints a row must meet to be stored beside [others]: the CHECK
    constraints first, then the unique indexes, then the foreign keys. *)
Definition row_constraints (t : table) (d : db)
    (others : list (row_of t)) (r : row_of t) : result () :=
  _ ← check_constraints t r;
  _ ← unique_constraints t others r;
  foreign_keys t d r.

(** INSERT of one row by the owner of the tables, whom row-level security
    does not bind. *)
Definition insert_row (t : table) (d : db) (r : row_of t) : result db :=
  _ ← row_constraints t d (rows d t) r;
  Ok (set_rows d t (rows d t ++ [r])).

(** ** The signup trigger *)

(** [handle_new_user], SECURITY DEFINER: it runs as its owner, so its INSERT
    is checked against the constraints of [profiles] and not against the
    policies. [now] is the value of NOW() that the column defaults take. *)
Definition handle_new_user (d : db) (NEW : AuthUser.t) (now : timestamptz)
    : result db :=
  let full_name :=
    coalesce (json_get_text (AuthUser.raw_user_meta_data NEW) "full_name")
             "Unknown User" in
  let role :=
    coalesce (json_get_text (AuthUser.raw_user_meta_data NEW) "role")
             "patient" in
  match AuthUser.email NEW with
  | None => Err (not_null_violation "email")
  | Some email =>
      insert_row profiles d
        (Profile.mk (AuthUser.id NEW) email full_name role None
           (Some now) (Some now))
  end.

(** INSERT INTO auth.users, with the trigger [on_auth_user_created] that runs
    AFTER INSERT FOR EACH ROW inside the same statement. *)
Definition create_user (d : db) (NEW : AuthUser.t) (now : timestamptz)
    : result db :=
  _ ← require (bool_decide (AuthUser.id NEW ∉ AuthUser.id <$> auth_users d))
        (unique_violation "users_pkey");
  handle_new_user
    (mkdb (auth_users d ++ [NEW]) (db_profiles d) (db_patient_details d)
       (db_surgeon_details d) (db_vital_signs d) (db_surgical_history d)
       (db_surgical_cases d) (db_historical_surgical_data d))
    NEW now.

(** The database after a statement: its result when it succeeded, and the
    database as it was when it raised an error. *)
Definition database_after (d : db) (r : result db) : db :=
  match r with
  | Ok d' => d'
  | Err _ => d
  end.

(** ** The expansion of the policies *)

(** The tables that the policies for an operation on [t] select from, for a
    command that reads columns of the table: an UPDATE or DELETE with a WHERE
    clause needs SELECT rights and also takes the SELECT policies. *)
Definition policy_sublinks (t : table) (op : operation) : list table :=
  match op with
  | Update | Delete =>
      concat (sublinks <$> applicable t Select) ++
      concat (sublinks <$> applicable t op)
  | _ => concat (sublinks <$> applicable t op)
  end.

(** Before a query runs, PostgreSQL adds the policies of each table the query
    names to it, and then does the same for the tables that the subqueries of
    those policies name, which are read under row-level security as well.
    [active] lists the tables whose policies are being expanded; meeting one
    of them again is the error "infinite recursion detected in policy for
    relation". [None] stands for a [fuel] too small to finish. *)
Fixpoint expand_policies (fuel : nat) (active : list table)
    (t : table) (op : operation) : option (result ()) :=
  match fuel with
  | O => None
  | S n =>
      let subs := policy_sublinks t op in
      if bool_decide (subs = []) then Some (Ok ())
      else if bool_decide (t ∈ active) then Some (Err (infinite_recursion t))
      else
        foldr
          (λ s rest,
             match expand_policies n (t :: active) s Select with
             | Some (Ok _) => rest
             | stopped => stopped
             end)
          (Some (Ok ())) subs
  end.

(** A command that names no column of the table (an UPDATE or DELETE
    without WHERE, an INSERT without RETURNING) needs no SELECT rights, and
    PostgreSQL leaves the SELECT policies out of it: it takes the policies of
    its own operation only. [reads] tells whether the command reads
    columns. *)
Definition command_sublinks (reads : bool) (t : table) (op : operation)
    : list table :=
  if reads then policy_sublinks t op
  else concat (sublinks <$> applicable t op).

(** There are seven tables, and a table that is met again ends the
    expansion: no chain of subqueries is longer than this. *)
Definition expansion_depth : nat := 8.

(** The expansion of the policies for a command of a caller. A depth that is
    used up counts as the recursion it stands for; with the policies of this
    schema the depth is never used up. *)
Definition expand_command (reads : bool) (t : table) (op : operation)
    : result () :=
  let expanded :=
    if reads then expand_policies expansion_depth [] t op
    else
      foldr
        (λ s rest,
           match expand_policies (pred expansion_depth) [t] s Select with
           | Some (Ok _) => rest
           | stopped => stopped
           end)
        (Some (Ok ())) (command_sublinks false t op) in
  match expanded with
  | Some r => r
  | None => Err (infinite_recursion t)
  end.

(** ** The types of the columns *)

(** INTEGER is a signed 32-bit number: a value outside its range is refused
    with "integer out of range". *)
Definition integer_fits (z : Z) : bool :=
  ((- 2 ^ 31 <=? z) && (z <? 2 ^ 31))%Z.

(** DECIMAL(p,2) holds p digits, two of them after the point: in hundredths,
    a value below 10^p in absolute value; a larger one is refused with
    "numeric field overflow". *)
Definition decimal_fits (precision : Z) (z : decimal) : bool :=
  (Z.abs z <? 10 ^ precision)%Z.

(** The values of a row that a command writes are converted to the types of
    the columns before the policies and the constraints see the row. *)
Definition column_types (t : table) : row_of t → result () :=
  match t with
  | surgeon_details => λ r,
      require
        (integer_fits (SurgeonDetails.years_of_experience r)
         && from_option (decimal_fits 10) true
              (SurgeonDetails.consultation_fee r))
        numeric_value_out_of_range
  | vital_signs => λ r,
      require
        (integer_fits (VitalSigns.heart_rate r)
         && integer_fits (VitalSigns.systolic_bp r)
         && integer_fits (VitalSigns.diastolic_bp r)
         && decimal_fits 4 (VitalSigns.body_temperature_celsius r)
         && integer_fits (VitalSigns.respiratory_rate r))
        numeric_value_out_of_range
  | surgical_cases => λ r,
      require
        (from_option integer_fits true
           (SurgicalCase.estimated_duration_minutes r))
        numeric_value_out_of_range
  | historical_surgical_data => λ r,
      require
        (integer_fits (HistoricalSurgicalData.week_number r)
         && integer_fits (HistoricalSurgicalData.year r)
         && integer_fits (HistoricalSurgicalData.surgical_volume r))
        numeric_value_out_of_range
  | _ => λ _, Ok ()
  end.

(** ** The queries of a caller *)

(** A command on one table, issued by a caller whom row-level security
    binds. The WHERE clause of an UPDATE or DELETE is a condition on the
    columns of the table, or is missing ([None]); the SET clause of an UPDATE
    assigns values that do not depend on the row, so [set] overwrites some
    columns and keeps the others; INSERT has no RETURNING. *)
Inductive query (t : table) :=
| SELECT (cond : row_of t → bool)
| INSERT (new : row_of t)
| UPDATE (set : row_of t → row_of t) (cond : option (row_of t → bool))
| DELETE (cond : option (row_of t → bool)).
Arguments SELECT {t}.
Arguments INSERT {t}.
Arguments UPDATE {t}.
Arguments DELETE {t}.

(** What the caller sees of a command. *)
Inductive outcome (t : table) :=
| rows_returned (l : list (row_of t))
| rows_affected (n : nat)
| failed (e : db_error).
Arguments rows_returned {t}.
Arguments rows_affected {t}.
Arguments failed {t}.

Definition operation_of {t} (q : query t) : operation :=
  match q with
  | SELECT _ => Select
  | INSERT _ => Insert
  | UPDATE _ _ => Update
  | DELETE _ => Delete
  end.

(** Whether a command reads columns of the table, and so needs SELECT
    rights: a SELECT does, and so does an UPDATE or DELETE with a WHERE
    clause. *)
Definition reads_columns {t} (q : query t) : bool :=
  match q with
  | SELECT _ => true
  | INSERT _ => false
  | UPDATE _ cond | DELETE cond => bool_decide (is_Some cond)
  end.

(** A missing WHERE clause keeps every row. *)
Definition where_ {t} (cond : option (row_of t → bool)) (r : row_of t)
    : bool :=
  match cond with
  | Some c => c r
  | None => true
  end.

(** The rows an UPDATE or DELETE reaches: those the policies of the command
    allow and the WHERE clause keeps, and, when there is a WHERE clause, the
    SELECT policies show. Rows that the policies hide are skipped without an
    error. *)
Definition reached (t : table) (op : operation) (d : db) (uid : option uuid)
    (cond : option (row_of t → bool)) (r : row_of t) : bool :=
  implb (bool_decide (is_Some cond)) (accessible t Select d uid r)
  && accessible t op d uid r && where_ cond r.

(** The name of a foreign key that still refers to profile [k], if any. *)
Definition referencing (d : db) (k : uuid) : option string :=
  if bool_decide (k ∈ PatientDetails.user_id <$> db_patient_details d)
  then Some "patient_details_user_id_fkey"
  else if bool_decide (k ∈ SurgeonDetails.user_id <$> db_surgeon_details d)
  then Some "surgeon_details_user_id_fkey"
  else if bool_decide (k ∈ VitalSigns.patient_id <$> db_vital_signs d)
  then Some "vital_signs_patient_id_fkey"
  else if bool_decide
            (k ∈ SurgicalHistory.patient_id <$> db_surgical_history d)
  then Some "surgical_history_patient_id_fkey"
  else if bool_decide
            (Some k ∈ SurgicalHistory.surgeon_id <$> db_surgical_history d)
  then Some "surgical_history_surgeon_id_fkey"
  else if bool_decide (k ∈ SurgicalCase.patient_id <$> db_surgical_cases d)
  then Some "surgical_cases_patient_id_fkey"
  else if bool_decide
            (Some k ∈ SurgicalCase.surgeon_id <$> db_surgical_cases d)
  then Some "surgical_cases_surgeon_id_fkey"
  else None.

(** The foreign keys on profiles(id) take no action ON UPDATE: the key of a
    profile that is referred to cannot change. *)
Definition key_update (t : table) (d : db) : row_of t → row_of t → result () :=
  match t with
  | profiles => λ r r',
      if bool_decide (Profile.id r = Profile.id r') then Ok ()
      else match referencing d (Profile.id r) with
           | Some c => Err (foreign_key_violation c)
           | None => Ok ()
           end
  | _ => λ _ _, Ok ()
  end.

(** UPDATE, row by row: [done] holds the rows already passed, [todo] those
    still to visit, [changed] the rows rewritten so far, each with what it
    was. The row as rewritten is converted to the types of the columns,
    checked against the policies (the UPDATE policies, and the SELECT
    policies when the command reads columns), then against the CHECK
    constraints and the unique indexes. The policies are evaluated on the
    database [d] as the statement found it. *)
Fixpoint update_rows (t : table) (d : db) (uid : option uuid)
    (set : row_of t → row_of t) (cond : option (row_of t → bool))
    (done todo : list (row_of t)) (changed : list (row_of t * row_of t))
    : result (list (row_of t) * list (row_of t * row_of t)) :=
  match todo with
  | [] => Ok (done, changed)
  | r :: rest =>
      if reached t Update d uid cond r then
        let r' := set r in
        _ ← column_types t r';
        _ ← require (writable t Update d uid r'
                     && implb (bool_decide (is_Some cond))
                          (accessible t Select d uid r'))
              (insufficient_privilege t);
        _ ← check_constraints t r';
        _ ← unique_constraints t (done ++ rest) r';
        update_rows t d uid set cond (done ++ [r']) rest (changed ++ [(r, r')])
      else update_rows t d uid set cond (done ++ [r]) rest changed
  end.

(** The foreign keys are checked when the statement ends, row by row in the
    order of the changes: first the keys that refer to the row, then the
    foreign keys of the row itself. *)
Definition after_update (t : table) (d : db)
    (changed : list (row_of t * row_of t)) : result () :=
  foldr (λ c rest,
           _ ← key_update t d c.1 c.2;
           _ ← foreign_keys t d c.2;
           rest)
        (Ok ()) changed.

Definition null_if (gone : list uuid) (k : option uuid) : option uuid :=
  match k with
  | Some k' => if bool_decide (k' ∈ gone) then None else k
  | None => None
  end.

(** ON DELETE CASCADE and ON DELETE SET NULL for the profiles [gone]. *)
Definition on_delete_profiles (d : db) (gone : list uuid) : db :=
  mkdb (auth_users d) (db_profiles d)
    (List.filter (λ r, bool_decide (PatientDetails.user_id r ∉ gone))
       (db_patient_details d))
    (List.filter (λ r, bool_decide (SurgeonDetails.user_id r ∉ gone))
       (db_surgeon_details d))
    (List.filter (λ r, bool_decide (VitalSigns.patient_id r ∉ gone))
       (db_vital_signs d))
    ((λ r, SurgicalHistory.mk (SurgicalHistory.id r)
             (SurgicalHistory.patient_id r)
             (null_if gone (SurgicalHistory.surgeon_id r))
             (SurgicalHistory.procedure_name r) (SurgicalHistory.hospital r)
             (SurgicalHistory.surgery_date r) (SurgicalHistory.outcome r)
             (SurgicalHistory.complications r) (SurgicalHistory.notes r)
             (SurgicalHistory.created_at r)) <$>
     List.filter (λ r, bool_decide (SurgicalHistory.patient_id r ∉ gone))
       (db_surgical_history d))
    ((λ r, SurgicalCase.mk (SurgicalCase.id r) (SurgicalCase.patient_id r)
             (null_if gone (SurgicalCase.surgeon_id r))
             (SurgicalCase.procedure_name r) (SurgicalCase.scheduled_date r)
             (SurgicalCase.status r) (SurgicalCase.priority r)
             (SurgicalCase.estimated_duration_minutes r)
             (SurgicalCase.notes r) (SurgicalCase.created_at r)
             (SurgicalCase.updated_at r)) <$>
     List.filter (λ r, bool_decide (SurgicalCase.patient_id r ∉ gone))
       (db_surgical_cases d))
    (db_historical_surgical_data d).

Definition on_delete (t : table) (d : db) (gone : list uuid) : db :=
  match t with
  | profiles => on_delete_profiles d gone
  | _ => d
  end.

(** A command whose policies have been expanded, on database [d] for caller
    [uid]: what the caller sees and the database afterwards. *)
Definition evaluate {t : table} (q : query t) (d : db) (uid : option uuid)
    : outcome t * db :=
  match q with
  | SELECT cond =>
      (rows_returned
         (List.filter (λ r, accessible t Select d uid r && cond r) (rows d t)),
       d)
  | INSERT new =>
      match column_types t new with
      | Err e => (failed e, d)
      | Ok _ =>
          if writable t Insert d uid new then
            match insert_row t d new with
            | Ok d' => (rows_affected 1, d')
            | Err e => (failed e, d)
            end
          else (failed (insufficient_privilege t), d)
      end
  | UPDATE set cond =>
      match
        u ← update_rows t d uid set cond [] (rows d t) [];
        _ ← after_update t d u.2;
        Ok u
      with
      | Ok (l, changed) => (rows_affected (length changed), set_rows d t l)
      | Err e => (failed e, d)
      end
  | DELETE cond =>
      let gone := List.filter (reached t Delete d uid cond) (rows d t) in
      let kept :=
        List.filter (λ r, negb (reached t Delete d uid cond r)) (rows d t) in
      (rows_affected (length gone),
       on_delete t (set_rows d t kept) (pkey t <$> gone))
  end.

(** A command of caller [uid] on database [d]: PostgreSQL first expands the
    policies of the table into the command, and a command whose expansion
    fails is not evaluated and leaves the database as it was. *)
Definition run {t : table} (q : query t) (d : db) (uid : option uuid)
    : outcome t * db :=
  match expand_command (reads_columns q) t (operation_of q) with
  | Ok _ => evaluate q d uid
  | Err e => (failed e, d)
  end.

(** ** The caller's role *)

(** The role of the profile whose id is [u], if there is one. *)
Definition caller_role (d : db) (u : uuid) : option text :=
  Profile.role <$>
    List.find (λ p, bool_decide (Profile.id p = u)) (db_profiles d).

(** PRIMARY KEY (id) on profiles, as a property of the stored rows. *)
Definition profiles_pkey (d : db) : Prop :=
  NoDup (Profile.id <$> db_profiles d).

(** Whether the profile of [u] has one of the roles [rs]. *)
Definition has_role (d : db) (u : uuid) (rs : list text) : bool :=
  match caller_role d u with
  | Some r => bool_decide (r ∈ rs)
  | None => false
  end.

(** UNIQUE (email) on profiles and REFERENCES auth.users(id), as properties
    of the stored rows. *)
Definition profiles_email_key (d : db) : Prop :=
  NoDup (Profile.email <$> db_profiles d).

Definition profiles_id_fkey (d : db) : Prop :=
  ∀ p, p ∈ db_profiles d → Profile.id p ∈ AuthUser.id <$> auth_users d.

(** [SET role = new_role] on a profile. *)
Definition set_role (new_role : text) (p : Profile.t) : Profile.t :=
  Profile.mk (Profile.id p) (Profile.email p) (Profile.full_name p) new_role
    (Profile.profile_picture_url p) (Profile.created_at p)
    (Profile.updated_at p).

(** No policy matches command [q] on row [r]; for an INSERT the row is the
    new one. *)
Definition denied {t} (q : query t) (d : db) (uid : option uuid)
    (r : row_of t) : Prop :=
  match q with
  | INSERT new => accessible t Insert d uid new = false
  | _ => accessible t (operation_of q) d uid r = false
  end.

(** ** A sample database *)

Module Sample.

Definition alice : AuthUser.t := AuthUser.mk 1 (Some "a@x.com") (Some ∅).
Definition bob : AuthUser.t :=
  AuthUser.mk 2 (Some "bob@x.com")
    (Some {[ "full_name" := JText "Bob"; "role" := JText "surgeon" ]}).
Definition carol : AuthUser.t :=
  AuthUser.mk 3 (Some "carol@x.com") (Some {[ "role" := JText "admin" ]}).
Definition dave : AuthUser.t := AuthUser.mk 4 (Some "dave@x.com") None.
Definition erin : AuthUser.t :=
  AuthUser.mk 5 (Some "erin@x.com") (Some {[ "role" := JText "nurse" ]}).
Definition frank : AuthUser.t :=
  AuthUser.mk 6 (Some "frank@x.com")
    (Some (JText <$> {[ "full_name" := "Frank"; "role" := "surgeon" ]})).

Definition profile_of (u : uuid) (email name role : text) : Profile.t :=
  Profile.mk u email name role None (Some 0%Z) (Some 0%Z).

Definition alice_profile := profile_of 1 "a@x.com" "Unknown User" "patient".
Definition bob_profile := profile_of 2 "bob@x.com" "Bob" "surgeon".
Definition carol_profile := profile_of 3 "carol@x.com" "Unknown User" "admin".
Definition dave_profile := profile_of 4 "dave@x.com" "Unknown User" "patient".

Definition vitals_alice : VitalSigns.t :=
  VitalSigns.mk 10 1 72 120 80 3690 16 None (Some 0%Z).
Definition vitals_dave : VitalSigns.t :=
  VitalSigns.mk 11 4 65 118 76 3701 14 (Some "resting") (Some 0%Z).

Definition history_dave : SurgicalHistory.t :=
  SurgicalHistory.mk 20 4 None "Appendectomy" "HOSP001" 19000 None None None
    (Some 0%Z).

(** A case of patient alice; its surgeon was deleted, so surgeon_id is NULL. *)
Definition case_alice : SurgicalCase.t :=
  SurgicalCase.mk 30 1 None "Knee replacement" None "proposed" None None None
    (Some 0%Z) (Some 0%Z).
Definition case_dave : SurgicalCase.t :=
  SurgicalCase.mk 31 4 (Some 2%N) "Hernia repair" None "scheduled" (Some "high")
    (Some 90%Z) None (Some 0%Z) (Some 0%Z).

(** The details of surgeon bob. *)
Definition bob_details : SurgeonDetails.t :=
  SurgeonDetails.mk 2 "Orthopedics" "HOSP001" 12 None None (Some 25000%Z)
    (Some 0%Z) (Some 0%Z).

Definition empty : db := mkdb [] [] [] [] [] [] [] [].

Definition hospital : db :=
  mkdb [alice; bob; carol; dave]
       [alice_profile; bob_profile; carol_profile; dave_profile]
       [] []
       [vitals_alice; vitals_dave]
       [history_dave]
       [case_alice; case_dave]
       [].

(** The hospital once bob has entered his details. *)
Definition clinic : db :=
  set_rows hospital surgeon_details [bob_details].

End Sample.

(** ** Properties of a stored database *)

(** Every stored row meets the CHECK constraints of its table. *)
Definition checks_hold (d : db) : Prop :=
  ∀ (t : table) (r : row_of t), r ∈ rows d t → check_constraints t r = Ok ().

(** Every table has its primary key. *)
Definition pkeys_unique (d : db) : Prop :=
  ∀ t : table, NoDup (pkey t <$> rows d t).

(** Every foreign key to profiles(id) finds its profile. *)
Definition foreign_keys_hold (d : db) : Prop :=
  ∀ (t : table) (r : row_of t),
    t ≠ profiles → r ∈ rows d t → foreign_keys t d r = Ok ().

(** The profiles that a row refers to through its foreign keys. *)
Definition refs (t : table) : row_of t → list uuid :=
  match t with
  | profiles => λ _, []
  | patient_details => λ r, [PatientDetails.user_id r]
  | surgeon_details => λ r, [SurgeonDetails.user_id r]
  | vital_signs => λ r, [VitalSigns.patient_id r]
  | surgical_history => λ r,
      SurgicalHistory.patient_id r :: option_list (SurgicalHistory.surgeon_id r)
  | surgical_cases => λ r,
      SurgicalCase.patient_id r :: option_list (SurgicalCase.surgeon_id r)
  | historical_surgical_data => λ _, []
  end.

(** The row of the VALUES clause of [handle_new_user], for an identity whose
    email is [email]. *)
Definition provisioned (NEW : AuthUser.t) (email : text) (now : timestamptz)
    : Profile.t :=
  Profile.mk (AuthUser.id NEW) email
    (coalesce (json_get_text (AuthUser.raw_user_meta_data NEW) "full_name")
       "Unknown User")
    (coalesce (json_get_text (AuthUser.raw_user_meta_data NEW) "role")
       "patient")
    None (Some now) (Some now).

(** The database with one more identity and one more profile. *)
Definition signed_up (d : db) (NEW : AuthUser.t) (p : Profile.t) : db :=
  mkdb (auth_users d ++ [NEW]) (db_profiles d ++ [p]) (db_patient_details d)
    (db_surgeon_details d) (db_vital_signs d) (db_surgical_history d)
    (db_surgical_cases d) (db_historical_surgical_data d).

(** ** The types of the client (src/lib/supabase.ts) *)

(** The string literal types of the interfaces [Profile], [SurgicalCase] and
    [HistoricalSurgicalData]. *)
Module ts.
Definition Profile_role : list text := ["patient"; "surgeon"; "admin"].
Definition SurgicalCase_status : list text :=
  ["proposed"; "scheduled"; "in_progress"; "completed"; "cancelled"].
Definition SurgicalCase_priority : list text :=
  ["low"; "medium"; "high"; "emergency"].
Definition HistoricalSurgicalData_season : list text :=
  ["spring"; "summer"; "fall"; "winter"].
End ts.

(** ** The dashboard (App.tsx) *)

(** What a component renders: one of the screens the file imports, or the
    placeholder [<div><h2>...</h2><p>...</p></div>]. *)
Inductive element :=
| PatientDashboard
| FindSurgeon
| HealthProfile
| AdminDashboard
| SignIn
| SignUp
| LoadingSpinner (size : string)
| notice (h2 p : string).

#[global] Instance element_eq_dec : EqDecision element.
Proof. solve_decision. Defined.

(** [AuthWrapper]: the state [isSignUp] starts as false. The screen that is
    shown gets the callback [onToggleMode], which sets the state to false
    when the screen is SignUp and to true when it is SignIn. *)
Definition AuthWrapper (isSignUp : bool) : element :=
  if isSignUp then SignUp else SignIn.

Definition onToggleMode (isSignUp : bool) : bool :=
  if isSignUp then false else true.

(** [renderContent] of [DashboardLayout]: [profile?.role] is compared with
    ===, and each role has its own switch over [activeTab]. *)
Definition renderContent (profile : option Profile.t) (activeTab : string)
    : element :=
  let role := Profile.role <$> profile in
  if bool_decide (role = Some "patient") then
    if bool_decide (activeTab = "dashboard") then PatientDashboard
    else if bool_decide (activeTab = "find-surgeon") then FindSurgeon
    else if bool_decide (activeTab = "health-profile") then HealthProfile
    else PatientDashboard
  else if bool_decide (role = Some "surgeon") then
    if bool_decide (activeTab = "dashboard") then
      notice "Surgeon Dashboard"
        "Coming Soon - Manage your patients and surgical cases"
    else if bool_decide (activeTab = "patients") then
      notice "My Patients" "Coming Soon - View and manage your patient list"
    else if bool_decide (activeTab = "schedule") then
      notice "My Schedule" "Coming Soon - Manage your surgical schedule"
    else if bool_decide (activeTab = "profile") then
      notice "Profile" "Coming Soon - Manage your professional profile"
    else notice "Surgeon Dashboard" "Coming Soon"
  else if bool_decide (role = Some "admin") then
    if bool_decide (activeTab = "dashboard") then AdminDashboard
    else if bool_decide (activeTab = "analytics") then
      notice "Analytics" "Coming Soon - Advanced analytics and insights"
    else if bool_decide (activeTab = "reports") then
      notice "Reports" "Coming Soon - Generate detailed reports"
    else AdminDashboard
  else notice "Unknown Role" "Please contact support".

(** [DashboardLayout]: the state [activeTab] starts as 'dashboard' and the
    sidebar sets it; the main area holds [renderContent ()]. *)
Definition initial_tab : string := "dashboard".

(** [AppContent], down to the screen in the main area: the spinner while
    loading, [AuthWrapper] without a user or without a profile, and
    [DashboardLayout] otherwise. [user] only matters as null or not. *)
Definition AppContent (user : bool) (profile : option Profile.t)
    (loading : bool) (isSignUp : bool) (activeTab : string) : element :=
  if loading then LoadingSpinner "lg"
  else if negb user || negb (bool_decide (is_Some profile))
  then AuthWrapper isSignUp
  else renderContent profile activeTab.

(** The tabs that the switch of a role names. *)
Definition tabs_of (role : text) : list string :=
  if bool_decide (role = "patient")
  then ["dashboard"; "find-surgeon"; "health-profile"]
  else if bool_decide (role = "surgeon")
  then ["dashboard"; "patients"; "schedule"; "profile"]
  else if bool_decide (role = "admin")
  then ["dashboard"; "analytics"; "reports"]
  else [].

Definition unknown_role : element :=
  notice "Unknown Role" "Please contact support".
(** * Properties *)

(** ** Three-valued logic *)

Lemma sql_eq_refl_true {A} `{EqDecision A} (x : A) :
  sql_eq (Some x) (Some x) = Some true.
Proof. cbn. by rewrite bool_decide_eq_true_2. Qed.

Lemma sql_in_cons (a : option text) (v : text) (vs : list text) :
  sql_in a (v :: vs) = sql_or (sql_eq a (Some v)) (sql_in a vs).
Proof. reflexivity. Qed.

Lemma sql_in_Some (x : text) (vs : list text) :
  sql_in (Some x) vs = Some (bool_decide (x ∈ vs)).
Proof.
  induction vs as [|v vs IH].
  - cbn. by rewrite bool_decide_eq_false_2 by apply not_elem_of_nil.
  - rewrite sql_in_cons, IH. cbn.
    destruct (decide (x = v)) as [->|Hne].
    + rewrite !bool_decide_eq_true_2 by (done || by left). done.
    + rewrite (bool_decide_eq_false_2 (x = v)) by done.
      destruct (decide (x ∈ vs)) as [Hin|Hin].
      * rewrite !bool_decide_eq_true_2 by (done || by right). done.
      * rewrite !bool_decide_eq_false_2; [done | | done].
        intros [?|?]%elem_of_cons; done.
Qed.

(** ** Evaluating the policies *)

(** Unfolds a decision down to the expressions of the policies that apply,
    leaving the three-valued connectives and the role subqueries folded. *)
Ltac policy_unfold :=
  cbv [accessible writable any_qual applicable policies profiles_policies
       patient_details_policies surgeon_details_policies vital_signs_policies
       surgical_history_policies surgical_cases_policies
       historical_surgical_data_policies List.filter applies polcmd omap
       list_omap predicate using_of check_of polqual polwithcheck foldr
       uid_is caller_role_is caller_role_in].

Lemma is_true_sql_or (a b : sqlbool) :
  is_true (sql_or a b) = is_true a || is_true b.
Proof. by destruct a as [[]|], b as [[]|]. Qed.

Lemma is_true_sql_eq {A} `{EqDecision A} (x : A) (b : option A) :
  is_true (sql_eq (Some x) b) = bool_decide (b = Some x).
Proof.
  destruct b as [y|]; cbn; [|done].
  destruct (decide (x = y)) as [->|Hne].
  - by rewrite !bool_decide_eq_true_2.
  - rewrite !bool_decide_eq_false_2; [done | congruence | done].
Qed.

Lemma is_true_sql_eq_sym {A} `{EqDecision A} (a b : option A) :
  is_true (sql_eq a b) = is_true (sql_eq b a).
Proof.
  destruct a as [x|], b as [y|]; cbn; try done.
  destruct (decide (x = y)) as [->|Hne]; [done|].
  rewrite !bool_decide_eq_false_2; [done | congruence | done].
Qed.

Section role_lookup.
Context (u : uuid) (cond : Profile.t → sqlbool).

Lemma matches_own (p : Profile.t) :
  Profile.id p = u → profile_matches (Some u) cond p = is_true (cond p).
Proof.
  intros <-. unfold profile_matches. rewrite sql_eq_refl_true.
  by destruct (cond p) as [[]|].
Qed.

Lemma matches_other (p : Profile.t) :
  Profile.id p ≠ u → profile_matches (Some u) cond p = false.
Proof.
  intros Hne. unfold profile_matches. cbn.
  rewrite bool_decide_eq_false_2 by done. by destruct (cond p) as [[]|].
Qed.

Lemma existsb_matches_absent (l : list Profile.t) :
  u ∉ Profile.id <$> l → existsb (profile_matches (Some u) cond) l = false.
Proof.
  induction l as [|p l IH]; [done|]. rewrite fmap_cons, not_elem_of_cons.
  intros [Hne Hl]. cbn [existsb].
  rewrite matches_other by done. by apply IH.
Qed.

(** Under the primary key, the subquery looks at the one profile of the
    caller. *)
Lemma existsb_matches_find (l : list Profile.t) :
  NoDup (Profile.id <$> l) →
  existsb (profile_matches (Some u) cond) l =
  match List.find (λ p, bool_decide (Profile.id p = u)) l with
  | Some p => is_true (cond p)
  | None => false
  end.
Proof.
  induction l as [|p l IH]; [done|]. rewrite fmap_cons, NoDup_cons.
  intros [Hp Hl]. cbn [existsb List.find].
  destruct (decide (Profile.id p = u)) as [Heq|Hne].
  - rewrite bool_decide_eq_true_2 by done. rewrite matches_own by done.
    rewrite existsb_matches_absent by (by rewrite <- Heq).
    by rewrite orb_false_r.
  - rewrite bool_decide_eq_false_2 by done. rewrite matches_other by done.
    by apply IH.
Qed.

End role_lookup.

Lemma exists_profile_role_in (d : db) (u : uuid) (rs : list text) :
  profiles_pkey d →
  is_true (exists_profile d (Some u) (role_in rs)) = has_role d u rs.
Proof.
  intros Hpk. unfold exists_profile, has_role, caller_role. cbn [is_true].
  rewrite (existsb_matches_find u (role_in rs)) by done.
  destruct (List.find _ _) as [p|]; cbn [fmap option_fmap option_map];
    [|done].
  unfold role_in. rewrite sql_in_Some. cbn. by destruct (bool_decide _).
Qed.

Lemma exists_profile_role_is (d : db) (u : uuid) (r : text) :
  profiles_pkey d →
  is_true (exists_profile d (Some u) (role_is r)) = has_role d u [r].
Proof.
  intros Hpk. rewrite <- exists_profile_role_in by done.
  clear Hpk. unfold exists_profile. do 2 f_equal.
  induction (db_profiles d) as [|p l IH]; [done|].
  cbn [existsb]. rewrite IH. f_equal.
  unfold profile_matches, role_in, role_is. rewrite sql_in_cons.
  cbn [sql_in foldr].
  by destruct (sql_eq (Some (Profile.id p)) _) as [[]|],
              (sql_eq (Some (Profile.role p)) _) as [[]|].
Qed.

Lemma is_true_sql_eq_Some {A} `{EqDecision A} (x y : A) :
  is_true (sql_eq (Some x) (Some y)) = bool_decide (y = x).
Proof.
  cbn. destruct (decide (x = y)) as [->|Hne].
  - by rewrite !bool_decide_eq_true_2.
  - rewrite !bool_decide_eq_false_2; [done | congruence | done].
Qed.

(** Rewrites a decision of caller [Some u] into booleans over the row and
    the caller's role, given the primary key of profiles. *)
Ltac policy_decide Hpk :=
  policy_unfold;
  rewrite ?is_true_sql_or, ?is_true_sql_eq_Some, ?is_true_sql_eq,
    ?(exists_profile_role_in _ _ _ Hpk), ?(exists_profile_role_is _ _ _ Hpk);
  cbn [is_true]; rewrite ?orb_false_r.

Lemma filter_all {A} (f : A → bool) (l : list A) :
  (∀ x, x ∈ l → f x = true) → List.filter f l = l.
Proof.
  induction l as [|x l IH]; [done|]. intros Hall. cbn.
  rewrite (Hall x) by left. f_equal. apply IH. intros y Hy. apply Hall.
  by right.
Qed.

Lemma filter_none {A} (f : A → bool) (l : list A) :
  (∀ x, x ∈ l → f x = false) → List.filter f l = [].
Proof.
  induction l as [|x l IH]; [done|]. intros Hall. cbn.
  rewrite (Hall x) by left. apply IH. intros y Hy. apply Hall. by right.
Qed.

(** ** The decisions, table by table *)

Section decisions.
Context (d : db) (u : uuid) (Hpk : profiles_pkey d).

Lemma profiles_decision (op : operation) (r : Profile.t) :
  accessible profiles op d (Some u) r =
  match op with
  | Select =>
      bool_decide (Profile.id r = u) || has_role d u ["surgeon"]
      || has_role d u ["admin"]
  | Insert | Update => bool_decide (Profile.id r = u) || has_role d u ["admin"]
  | Delete => has_role d u ["admin"]
  end.
Proof. destruct op; policy_decide Hpk; by rewrite ?orb_assoc. Qed.

Lemma vital_signs_decision (op : operation) (r : VitalSigns.t) :
  accessible vital_signs op d (Some u) r =
  match op with
  | Select | Insert =>
      bool_decide (VitalSigns.patient_id r = u)
      || has_role d u ["surgeon"; "admin"]
  | Update | Delete => has_role d u ["surgeon"; "admin"]
  end.
Proof. destruct op; by policy_decide Hpk. Qed.

Lemma surgical_cases_decision (op : operation) (r : SurgicalCase.t) :
  accessible surgical_cases op d (Some u) r =
  match op with
  | Select =>
      bool_decide (SurgicalCase.patient_id r = u)
      || (bool_decide (SurgicalCase.surgeon_id r = Some u)
          || has_role d u ["admin"])
  | _ => bool_decide (SurgicalCase.surgeon_id r = Some u)
         || has_role d u ["admin"]
  end.
Proof. destruct op; by policy_decide Hpk. Qed.

(** The check of the row that an INSERT or UPDATE writes. *)
Lemma surgical_cases_written (op : operation) (r : SurgicalCase.t) :
  writable surgical_cases op d (Some u) r =
  match op with
  | Select =>
      bool_decide (SurgicalCase.patient_id r = u)
      || (bool_decide (SurgicalCase.surgeon_id r = Some u)
          || has_role d u ["admin"])
  | _ => bool_decide (SurgicalCase.surgeon_id r = Some u)
         || has_role d u ["admin"]
  end.
Proof. destruct op; by policy_decide Hpk. Qed.

End decisions.

Lemma has_role_of (d : db) (u : uuid) (r : text) (rs : list text) :
  caller_role d u = Some r → has_role d u rs = bool_decide (r ∈ rs).
Proof. unfold has_role. by intros ->. Qed.

Lemma has_role_not (d : db) (u : uuid) (r : text) :
  caller_role d u ≠ Some r → has_role d u [r] = false.
Proof.
  unfold has_role. destruct (caller_role d u) as [r'|]; [|done].
  intros Hne. apply bool_decide_eq_false_2.
  intros ->%list_elem_of_singleton. done.
Qed.
Lemma is_true_uid_is {A} `{EqDecision A} (a : option A) (x : A) :
  is_true (sql_eq a (Some x)) = bool_decide (a = Some x).
Proof.
  destruct a as [y|]; cbn.
  - destruct (decide (y = x)) as [-> | Hne].
    + by rewrite !bool_decide_eq_true_2.
    + rewrite !bool_decide_eq_false_2; [done | congruence | done].
  - by rewrite bool_decide_eq_false_2.
Qed.

Lemma rows_set_rows (t : table) (d : db) (l : list (row_of t)) :
  rows (set_rows d t l) t = l.
Proof. by destruct t. Qed.

Lemma set_rows_rows (t : table) (d : db) : set_rows d t (rows d t) = d.
Proof. by destruct t, d. Qed.

Lemma NoDup_fmap_middle {A B} (f : A → B) (pre post : list A) (x : A) :
  NoDup (f <$> pre ++ x :: post) →
  f x ∉ f <$> pre ++ post.
Proof.
  rewrite !fmap_app, fmap_cons. intros Hnd Hin.
  apply NoDup_app in Hnd as (_ & Hpre & Hpost).
  apply NoDup_cons in Hpost as [Hx _].
  apply elem_of_app in Hin as [Hin | Hin]; [|done].
  apply (Hpre _ Hin). by left.
Qed.

Lemma NoDup_fmap_others {A B} (f : A → B) (pre post : list A) (x y : A) :
  NoDup (f <$> pre ++ x :: post) → y ∈ pre ++ post → f y ≠ f x.
Proof.
  intros Hnd Hy Heq. apply (NoDup_fmap_middle f pre post x Hnd).
  rewrite <- Heq. by apply list_elem_of_fmap_2.
Qed.

Lemma accessible_frame (t : table) (op : operation) (d : db)
    (uid : option uuid) (l : list (row_of t)) (x : row_of t) :
  t ≠ profiles →
  accessible t op (set_rows d t l) uid x = accessible t op d uid x.
Proof. by destruct t, op. Qed.

Lemma filter_without {A} (f g : A → bool) (pre post : list A) (r : A) :
  f r = false → (∀ x, g x = f x) →
  List.filter f (pre ++ r :: post) = List.filter g (pre ++ post).
Proof.
  intros Hr Hext. rewrite !List.filter_app. cbn. rewrite Hr.
  f_equal; apply filter_ext; intros x; by rewrite Hext.
Qed.
Lemma sample_profiles_pkey : profiles_pkey Sample.hospital.
Proof. unfold profiles_pkey. compute_done. Defined.

Lemma sample_profiles_email_key : profiles_email_key Sample.hospital.
Proof. unfold profiles_email_key. compute_done. Defined.

Lemma sample_profiles_id_fkey : profiles_id_fkey Sample.hospital.
Proof.
  intros p Hp. cbn in Hp.
  repeat (apply elem_of_cons in Hp as [-> | Hp]; [compute_done|]).
  by apply elem_of_nil in Hp.
Defined.
(** ** Commands and the expansion of their policies *)

(** With the policies of this schema the expansion ends in one of two ways:
    it succeeds when the policies that the command takes hold no subquery,
    and it meets profiles inside the policies of profiles when they hold
    one. *)
Lemma expand_command_spec (reads : bool) (t : table) (op : operation) :
  expand_command reads t op =
  if bool_decide (command_sublinks reads t op = []) then Ok ()
  else Err (infinite_recursion profiles).
Proof. by destruct reads, t, op. Qed.

(** The depth of [expand_command] is enough: more of it changes nothing. *)
Lemma expand_command_depth (k : nat) (t : table) (op : operation) :
  expand_policies (expansion_depth + k) [] t op =
  Some (expand_command true t op).
Proof. by destruct t, op. Qed.

Lemma run_expanded {t : table} (q : query t) (d : db) (uid : option uuid) :
  command_sublinks (reads_columns q) t (operation_of q) = [] →
  run q d uid = evaluate q d uid.
Proof.
  intros Hnone. unfold run. rewrite expand_command_spec.
  by rewrite bool_decide_eq_true_2.
Qed.

Lemma run_recursion {t : table} (q : query t) (d : db) (uid : option uuid) :
  command_sublinks (reads_columns q) t (operation_of q) ≠ [] →
  run q d uid = (failed (infinite_recursion profiles), d).
Proof.
  intros Hsome. unfold run. rewrite expand_command_spec.
  by rewrite bool_decide_eq_false_2.
Qed.

(** Every policy set but those of the two tables of details holds a role
    subquery in a policy FOR ALL, which every command takes. *)
Lemma run_role_subquery {t : table} (q : query t) (d : db)
    (uid : option uuid) :
  t ≠ patient_details → t ≠ surgeon_details →
  run q d uid = (failed (infinite_recursion profiles), d).
Proof.
  intros Hpd Hsd. apply run_recursion.
  destruct t; try done; by destruct q as [?|?|? []|[]].
Qed.

(** ** Commands that reach no row *)

Section update_rows.
Context (t : table) (d : db) (uid : option uuid).
Context (set : row_of t → row_of t) (cond : option (row_of t → bool)).

(** Rows that the command does not reach are passed over. *)
Lemma update_rows_skip (todo1 todo2 done : list (row_of t))
    (changed : list (row_of t * row_of t)) :
  (∀ x, x ∈ todo1 → reached t Update d uid cond x = false) →
  update_rows t d uid set cond done (todo1 ++ todo2) changed =
  update_rows t d uid set cond (done ++ todo1) todo2 changed.
Proof.
  revert done. induction todo1 as [|x todo1 IH]; intros done Hskip.
  - by rewrite app_nil_r.
  - cbn [app update_rows]. rewrite (Hskip x) by left.
    rewrite IH by (intros y Hy; apply Hskip; by right).
    by rewrite <- app_assoc.
Qed.

End update_rows.

Lemma reached_denied (t : table) (op : operation) (d : db)
    (uid : option uuid) (cond : option (row_of t → bool)) (r : row_of t) :
  accessible t op d uid r = false → reached t op d uid cond r = false.
Proof.
  intros Hden. unfold reached. rewrite Hden.
  by rewrite andb_false_r.
Qed.

Lemma reached_past (t : table) (op : operation) (d : db)
    (uid : option uuid) (cond : option (row_of t → bool)) (r : row_of t) :
  where_ cond r = false → reached t op d uid cond r = false.
Proof. intros Hpast. unfold reached. rewrite Hpast. by rewrite andb_false_r. Qed.

(** ** C1: permissive policies combine with OR *)

(** C1, on the code. The decision is not the OR of the predicates for every
    table: on vital_signs the predicate of the policy "Patients can view
    their own vital signs" is TRUE for a caller on a row of their own, and
    still the caller's SELECT returns no row, that one included: it fails
    while the role subquery of the policy beside it is expanded. *)
Theorem C1_true_predicate_without_access (d : db) (u : uuid)
    (r : VitalSigns.t) (cond : VitalSigns.t → bool) :
  VitalSigns.patient_id r = u →
  (∃ (p : policy vital_signs) (q : qual vital_signs),
     p ∈ policies vital_signs ∧ applies (polcmd p) Select = true ∧
     predicate Select p = Some q ∧ q d (Some u) r = Some true) ∧
  run (SELECT (t:=vital_signs) cond) d (Some u) =
  (failed (infinite_recursion profiles), d).
Proof.
  intros Hown. split; [|done].
  eexists _, _. split; [by left|]. split; [done|]. split; [done|].
  cbn. by rewrite bool_decide_eq_true_2.
Qed.

(** alice asks for her own vital signs. *)
Lemma C1_true_predicate_without_access_witness :
  Sample.vitals_alice ∈ db_vital_signs Sample.hospital ∧
  run (SELECT (t:=vital_signs) (λ _, true)) Sample.hospital (Some 1%N) =
  (failed (infinite_recursion profiles), Sample.hospital).
Proof.
  split; [by left|].
  apply (C1_true_predicate_without_access Sample.hospital 1
           Sample.vitals_alice (λ _, true) eq_refl).
Defined.

(** ** C2: who reads vital signs *)

(** C2, on the code. A SELECT over vital_signs returns no rows to anybody:
    for every caller, whatever their role, and every WHERE clause it fails
    with "infinite recursion detected in policy for relation profiles",
    because the policy "Healthcare providers can manage vital signs" looks
    the role up in profiles. *)
Theorem C2_vital_signs_select_fails (d : db) (uid : option uuid)
    (cond : VitalSigns.t → bool) :
  run (SELECT (t:=vital_signs) cond) d uid =
  (failed (infinite_recursion profiles), d).
Proof. reflexivity. Qed.

(** ** C3: who updates a surgical case *)

(** C3. An UPDATE of a surgical case by a caller who is not its surgeon_id
    and whose profile role is not 'admin' is denied: no policy for UPDATE
    matches the row, and every UPDATE of the caller on surgical_cases is
    refused and leaves the database as it was. Being the patient_id of the
    case makes no difference. (The refusal is the error of the policy
    expansion, which meets every caller.) *)
Theorem C3_case_update_denied (d : db) (u : uuid) (r : SurgicalCase.t) :
  profiles_pkey d →
  SurgicalCase.surgeon_id r ≠ Some u →
  caller_role d u ≠ Some "admin" →
  accessible surgical_cases Update d (Some u) r = false ∧
  (∀ set cond,
     run (UPDATE (t:=surgical_cases) set cond) d (Some u) =
     (failed (infinite_recursion profiles), d)).
Proof.
  intros Hpk Hsurgeon Hadmin. split.
  - rewrite surgical_cases_decision by done.
    rewrite has_role_not by done.
    by rewrite bool_decide_eq_false_2.
  - intros set cond. by apply run_role_subquery.
Qed.

(** The caller is alice, the patient of the case, whose role is 'patient';
    she tries to have her case scheduled. *)
Lemma C3_case_update_denied_witness :
  let set := λ c : SurgicalCase.t,
    SurgicalCase.mk (SurgicalCase.id c) (SurgicalCase.patient_id c)
      (SurgicalCase.surgeon_id c) (SurgicalCase.procedure_name c)
      (SurgicalCase.scheduled_date c) "scheduled" (SurgicalCase.priority c)
      (SurgicalCase.estimated_duration_minutes c) (SurgicalCase.notes c)
      (SurgicalCase.created_at c) (SurgicalCase.updated_at c) in
  SurgicalCase.patient_id Sample.case_alice = 1%N ∧
  accessible surgical_cases Update Sample.hospital (Some 1%N)
    Sample.case_alice = false ∧
  db_surgical_cases
    (snd (run (UPDATE (t:=surgical_cases) set
                 (Some (λ c, bool_decide (SurgicalCase.id c = 30%N))))
            Sample.hospital (Some 1%N))) =
  [Sample.case_alice; Sample.case_dave].
Proof.
  intros set.
  pose proof (C3_case_update_denied Sample.hospital 1 Sample.case_alice
                sample_profiles_pkey ltac:(discriminate) ltac:(discriminate))
    as [Hden Hrun].
  split; [reflexivity|]. split; [exact Hden|].
  by rewrite Hrun.
Defined.

(** ** C9: the role 'surgeon' and surgical cases *)

(** C9, on the code. For a caller with the role 'surgeon' who is neither the
    surgeon_id nor the patient_id of a case, no policy matches any operation
    on the case, and every command of the caller on surgical_cases is
    refused. The contrast that the claim draws is not there: every command
    of the same caller on vital_signs and on surgical_history is refused in
    the same way, with "infinite recursion detected in policy for relation
    profiles", so the role gives access to no row of those tables. *)
Theorem C9_surgeon_contrast_fails (d : db) (u : uuid) (r : SurgicalCase.t) :
  profiles_pkey d →
  caller_role d u = Some "surgeon" →
  SurgicalCase.surgeon_id r ≠ Some u →
  SurgicalCase.patient_id r ≠ u →
  (∀ op, accessible surgical_cases op d (Some u) r = false ∧
         writable surgical_cases op d (Some u) r = false) ∧
  (∀ q : query surgical_cases,
     run q d (Some u) = (failed (infinite_recursion profiles), d)) ∧
  (∀ q : query vital_signs,
     run q d (Some u) = (failed (infinite_recursion profiles), d)) ∧
  (∀ q : query surgical_history,
     run q d (Some u) = (failed (infinite_recursion profiles), d)).
Proof.
  intros Hpk Hrole Hsurgeon Hpatient. split; [|split; [|split]].
  - intros op.
    rewrite surgical_cases_decision, surgical_cases_written by done.
    rewrite (has_role_of _ _ _ _ Hrole).
    rewrite !(bool_decide_eq_false_2 _ Hsurgeon).
    rewrite !(bool_decide_eq_false_2 _ Hpatient).
    by destruct op.
  - intros q. by apply run_role_subquery.
  - intros q. by apply run_role_subquery.
  - intros q. by apply run_role_subquery.
Qed.

(** The caller is bob, a surgeon, who asks for all vital signs. *)
Lemma C9_surgeon_contrast_fails_witness :
  caller_role Sample.hospital 2 = Some "surgeon" ∧
  run (SELECT (t:=vital_signs) (λ _, true)) Sample.hospital (Some 2%N) =
  (failed (infinite_recursion profiles), Sample.hospital).
Proof.
  split; [reflexivity|].
  apply (C9_surgeon_contrast_fails Sample.hospital 2 Sample.case_alice
           sample_profiles_pkey);
    [reflexivity | discriminate | discriminate].
Defined.

(** ** C10: who deletes a profile *)

(** C10. A caller whose profile role is not 'admin' can delete no row of
    profiles, their own included: the one policy that covers DELETE on
    profiles is the FOR ALL policy of the admins, so no DELETE policy matches
    any row, and every DELETE of the caller on profiles is refused and
    leaves the database as it was. (The refusal is the error of the policy
    expansion, which meets every caller.) *)
Theorem C10_only_admins_delete_profiles (d : db) (u : uuid) :
  profiles_pkey d →
  caller_role d u ≠ Some "admin" →
  polname <$> applicable profiles Delete = ["Admins can view all profiles"] ∧
  (∀ r, accessible profiles Delete d (Some u) r = false) ∧
  (∀ cond,
     run (DELETE (t:=profiles) cond) d (Some u) =
     (failed (infinite_recursion profiles), d)).
Proof.
  intros Hpk Hadmin. split; [done|]. split.
  - intros r. rewrite profiles_decision by done. by apply has_role_not.
  - intros cond. by apply run_role_subquery.
Qed.

(** The caller is alice, a patient, and the row is her own profile. *)
Lemma C10_only_admins_delete_profiles_witness :
  Profile.id Sample.alice_profile = 1%N ∧
  accessible profiles Delete Sample.hospital (Some 1%N)
    Sample.alice_profile = false ∧
  db_profiles
    (snd (run (DELETE (t:=profiles)
                 (Some (λ p, bool_decide (Profile.id p = 1%N))))
            Sample.hospital (Some 1%N))) =
  db_profiles Sample.hospital.
Proof.
  pose proof (C10_only_admins_delete_profiles Sample.hospital 1
                sample_profiles_pkey ltac:(discriminate))
    as (_ & Hden & Hrun).
  split; [reflexivity|]. split; [apply Hden|].
  by rewrite Hrun.
Defined.

(** ** C8: the role column of one's own profile *)

(** C8, on the code. The UPDATE policy on a caller's own profile is TRUE for
    the stored row and for the row as rewritten, whatever role the command
    sets; and still no caller changes their role: every UPDATE on profiles
    fails with "infinite recursion detected in policy for relation
    profiles", because the policy "Admins can view all profiles" is FOR ALL
    and looks the role up in profiles, and the role stays what it was. *)
Theorem C8_own_role_update_fails (d : db) (u : uuid) (p : Profile.t)
    (new_role : text) (cond : option (Profile.t → bool)) :
  Profile.id p = u →
  accessible profiles Update d (Some u) p = true ∧
  writable profiles Update d (Some u) (set_role new_role p) = true ∧
  run (UPDATE (t:=profiles) (set_role new_role) cond) d (Some u) =
  (failed (infinite_recursion profiles), d) ∧
  caller_role
    (snd (run (UPDATE (t:=profiles) (set_role new_role) cond) d (Some u))) u =
  caller_role d u.
Proof.
  intros Hid.
  assert (run (UPDATE (t:=profiles) (set_role new_role) cond) d (Some u) =
          (failed (infinite_recursion profiles), d)) as Hrun
    by (by apply run_role_subquery).
  split; [|split; [|split; [done | by rewrite Hrun]]].
  - policy_unfold. rewrite is_true_sql_or, is_true_sql_eq_Some.
    by rewrite (bool_decide_eq_true_2 _ Hid).
  - policy_unfold. rewrite is_true_sql_or, is_true_sql_eq_Some.
    cbn [set_role Profile.id]. by rewrite (bool_decide_eq_true_2 _ Hid).
Qed.

(** alice, a patient, tries to make herself a surgeon. *)
Lemma C8_own_role_update_fails_witness :
  let q := UPDATE (t:=profiles) (set_role "surgeon")
             (Some (λ p, bool_decide (Profile.id p = 1%N))) in
  run q Sample.hospital (Some 1%N) =
  (failed (infinite_recursion profiles), Sample.hospital) ∧
  caller_role (snd (run q Sample.hospital (Some 1%N))) 1 = Some "patient".
Proof.
  intros q.
  pose proof (C8_own_role_update_fails Sample.hospital 1 Sample.alice_profile
                "surgeon" (Some (λ p, bool_decide (Profile.id p = 1%N)))
                eq_refl) as (_ & _ & Hrun & Hrole).
  split; [exact Hrun|]. exact Hrole.
Defined.

(** ** C7: a denied row and an absent row look the same *)

Lemma writable_frame (t : table) (op : operation) (d : db)
    (uid : option uuid) (l : list (row_of t)) (x : row_of t) :
  t ≠ profiles →
  writable t op (set_rows d t l) uid x = writable t op d uid x.
Proof. by destruct t, op. Qed.

Lemma foreign_keys_frame (t : table) (d : db) (l : list (row_of t))
    (x : row_of t) :
  t ≠ profiles → foreign_keys t (set_rows d t l) x = foreign_keys t d x.
Proof. by destruct t. Qed.

Lemma after_update_frame (t : table) (d : db) (l : list (row_of t))
    (ch : list (row_of t * row_of t)) :
  t ≠ profiles → after_update t (set_rows d t l) ch = after_update t d ch.
Proof.
  intros Ht. induction ch as [|c ch IH]; [done|].
  cbn [after_update foldr]. fold (after_update t (set_rows d t l) ch).
  fold (after_update t d ch). rewrite IH, foreign_keys_frame by done.
  by destruct t.
Qed.

(** On the two tables of details the policies for writing compare
    auth.uid() with the key of the row: a row that the caller may write and
    a row that the caller may not update have different keys. *)
Lemma details_keys_differ (t : table) (d : db) (uid : option uuid)
    (x r : row_of t) :
  t = surgeon_details ∨ t = patient_details →
  writable t Update d uid x = true →
  accessible t Update d uid r = false →
  pkey t x ≠ pkey t r.
Proof.
  intros [-> | ->]; policy_unfold;
    rewrite !is_true_sql_or, !is_true_uid_is; cbn [is_true pkey];
    rewrite !orb_false_r;
    intros Hx%bool_decide_eq_true Hr%bool_decide_eq_false; congruence.
Qed.

Lemma details_unique_without (t : table) (a b : list (row_of t))
    (r x : row_of t) :
  t = surgeon_details ∨ t = patient_details →
  pkey t x ≠ pkey t r →
  unique_constraints t (a ++ r :: b) x = unique_constraints t (a ++ b) x.
Proof.
  intros Ht Hne.
  assert (pkey t x ∉ pkey t <$> a ++ r :: b ↔ pkey t x ∉ pkey t <$> a ++ b)
    as Hiff.
  { rewrite !fmap_app, fmap_cons, !elem_of_app, elem_of_cons. tauto. }
  destruct Ht as [-> | ->]; cbn [unique_constraints];
    by rewrite (bool_decide_ext _ _ Hiff).
Qed.

Section update_without.
Context (t : table) (d : db) (uid : option uuid).
Context (set : row_of t → row_of t) (cond : option (row_of t → bool)).
Context (r : row_of t) (l : list (row_of t)).
Context (Ht : t = surgeon_details ∨ t = patient_details).
Context (Hden : accessible t Update d uid r = false).

Lemma details_not_profiles : t ≠ profiles.
Proof. by destruct Ht as [-> | ->]. Qed.

Lemma reached_frame (x : row_of t) :
  reached t Update (set_rows d t l) uid cond x = reached t Update d uid cond x.
Proof. unfold reached. by rewrite !accessible_frame by apply details_not_profiles. Qed.

(** The changes an UPDATE makes, or the error it ends in, once the denied
    row has been passed. *)
Lemma update_rows_without_done (a b todo : list (row_of t))
    (ch : list (row_of t * row_of t)) :
  (u ← update_rows t d uid set cond (a ++ r :: b) todo ch; Ok u.2) =
  (u ← update_rows t (set_rows d t l) uid set cond (a ++ b) todo ch; Ok u.2).
Proof.
  revert b ch. induction todo as [|x rest IH]; intros b ch; [done|].
  cbn [update_rows]. rewrite reached_frame.
  destruct (reached t Update d uid cond x).
  - destruct (column_types t (set x)) as [[]|]; [|done].
    cbn [mbind result_bind].
    rewrite writable_frame, accessible_frame by apply details_not_profiles.
    destruct (writable t Update d uid (set x)) eqn:Hw; [|done].
    destruct (implb _ _); [|done]. cbn [andb require mbind result_bind].
    destruct (check_constraints t (set x)) as [[]|]; [|done].
    cbn [mbind result_bind].
    assert (unique_constraints t ((a ++ r :: b) ++ rest) (set x) =
            unique_constraints t ((a ++ b) ++ rest) (set x)) as ->.
    { rewrite <- !app_assoc.
      apply (details_unique_without t a (b ++ rest) r (set x) Ht).
      by apply (details_keys_differ t d uid). }
    destruct (unique_constraints t _ (set x)) as [[]|]; [|done].
    cbn [mbind result_bind].
    rewrite <- !app_assoc. apply (IH (b ++ [set x])).
  - rewrite <- !app_assoc. apply (IH (b ++ [x])).
Qed.

(** The same, with the denied row still to come. *)
Lemma update_rows_without (done pre post : list (row_of t))
    (ch : list (row_of t * row_of t)) :
  (u ← update_rows t d uid set cond done (pre ++ r :: post) ch; Ok u.2) =
  (u ← update_rows t (set_rows d t l) uid set cond done (pre ++ post) ch;
   Ok u.2).
Proof.
  revert done ch. induction pre as [|x pre IH]; intros done ch.
  - cbn [app update_rows]. rewrite (reached_denied t Update d uid cond r Hden).
    rewrite <- (app_nil_r done) at 2.
    apply update_rows_without_done.
  - cbn [app update_rows]. rewrite reached_frame.
    destruct (reached t Update d uid cond x).
    + destruct (column_types t (set x)) as [[]|]; [|done].
      cbn [mbind result_bind].
      rewrite writable_frame, accessible_frame by apply details_not_profiles.
      destruct (writable t Update d uid (set x)) eqn:Hw; [|done].
      destruct (implb _ _); [|done]. cbn [andb require mbind result_bind].
      destruct (check_constraints t (set x)) as [[]|]; [|done].
      cbn [mbind result_bind].
      assert (unique_constraints t (done ++ pre ++ r :: post) (set x) =
              unique_constraints t (done ++ pre ++ post) (set x)) as ->.
      { rewrite !app_assoc.
        apply (details_unique_without t (done ++ pre) post r (set x) Ht).
        by apply (details_keys_differ t d uid). }
      destruct (unique_constraints t _ (set x)) as [[]|]; [|done].
      cbn [mbind result_bind]. apply IH.
    + apply IH.
Qed.

End update_without.

(** What the caller sees of an UPDATE, from the changes it makes. *)
Lemma evaluate_update_outcome (t : table) (d : db) (uid : option uuid)
    (set : row_of t → row_of t) (cond : option (row_of t → bool)) :
  fst (evaluate (UPDATE set cond) d uid) =
  match
    ch ← (u ← update_rows t d uid set cond [] (rows d t) []; Ok u.2);
    _ ← after_update t d ch;
    Ok ch
  with
  | Ok ch => rows_affected (length ch)
  | Err e => failed e
  end.
Proof.
  cbn [evaluate].
  destruct (update_rows _ _ _ _ _ _ _ _) as [[l ch]|e];
    cbn [mbind result_bind]; [|done].
  cbn [snd]. by destruct (after_update t d ch) as [[]|e'].
Qed.

(** The two runs of a command on one of the tables of details. *)
Lemma evaluate_denied_row_looks_absent (t : table) (d : db)
    (uid : option uuid) (q : query t) (pre post : list (row_of t))
    (r : row_of t) :
  t = surgeon_details ∨ t = patient_details →
  rows d t = pre ++ r :: post →
  denied q d uid r →
  fst (evaluate q d uid) = fst (evaluate q (set_rows d t (pre ++ post)) uid).
Proof.
  intros Hdetails Hrows Hden.
  assert (t ≠ profiles) as Ht by (by destruct Hdetails as [-> | ->]).
  destruct q as [cond | new | set cond | cond].
  - (* SELECT *)
    cbn in Hden. cbn [evaluate fst]. rewrite rows_set_rows, Hrows. f_equal.
    apply filter_without; [by rewrite Hden|].
    intros x. by rewrite accessible_frame.
  - (* INSERT *)
    cbn in Hden. cbn [evaluate].
    destruct (column_types t new) as [[]|e]; [|done].
    change (writable t Insert) with (accessible t Insert).
    by rewrite accessible_frame, Hden.
  - (* UPDATE *)
    cbn in Hden. rewrite !evaluate_update_outcome.
    rewrite rows_set_rows, Hrows.
    rewrite (update_rows_without t d uid set cond r (pre ++ post)) by done.
    destruct (update_rows _ _ _ _ _ _ _ _) as [[l ch]|e]; [|done].
    cbn [mbind result_bind snd]. by rewrite after_update_frame.
  - (* DELETE *)
    cbn in Hden. cbn [evaluate fst]. rewrite rows_set_rows, Hrows.
    do 2 f_equal. apply filter_without; [by apply reached_denied|].
    intros x. unfold reached. by rewrite !accessible_frame.
Qed.

(** C7. When no policy matches an operation on a row, the caller sees what
    they would see if the row were not in the table: for every command, a
    SELECT, an UPDATE or a DELETE with any WHERE clause or none, the two runs
    give the same result or the same error. For an INSERT the row that no
    policy matches is the new one, and the stored row is any row, one with
    the key of the new row included. Where the policies hold a role subquery
    both runs fail with the same error. *)
Theorem C7_denied_row_looks_absent (t : table) (d : db) (uid : option uuid)
    (q : query t) (pre post : list (row_of t)) (r : row_of t) :
  rows d t = pre ++ r :: post →
  denied q d uid r →
  fst (run q d uid) = fst (run q (set_rows d t (pre ++ post)) uid).
Proof.
  intros Hrows Hden.
  destruct (decide (t = surgeon_details ∨ t = patient_details))
    as [Hdetails | Hother].
  - unfold run. destruct (expand_command _ _ _) as [[]|e]; [|done].
    by apply (evaluate_denied_row_looks_absent t d uid q pre post r).
  - by rewrite !run_role_subquery by tauto.
Qed.

(** carol, an admin, has details as a surgeon. alice tries to give every
    surgeon the bio of her choice, and then to delete the details of all
    surgeons: both commands report no row, as they do when bob has no
    details; and carol reports one row in both runs. *)
Lemma C7_denied_row_looks_absent_witness :
  let set := λ r : SurgeonDetails.t,
    SurgeonDetails.mk (SurgeonDetails.user_id r) (SurgeonDetails.specialty r)
      (SurgeonDetails.hospital_affiliation r)
      (SurgeonDetails.years_of_experience r) (SurgeonDetails.certifications r)
      None (SurgeonDetails.consultation_fee r) (SurgeonDetails.created_at r)
      (SurgeonDetails.updated_at r) in
  let carol_details :=
    SurgeonDetails.mk 3 "Cardiology" "HOSP002" 20 None None None None None in
  let d := set_rows Sample.hospital surgeon_details
             ([] ++ Sample.bob_details :: [carol_details]) in
  let without := set_rows d surgeon_details ([] ++ [carol_details]) in
  fst (run (UPDATE (t:=surgeon_details) set None) d (Some 1%N)) =
    fst (run (UPDATE (t:=surgeon_details) set None) without (Some 1%N)) ∧
  fst (run (UPDATE (t:=surgeon_details) set None) d (Some 1%N)) =
    rows_affected 0 ∧
  fst (run (DELETE (t:=surgeon_details) None) d (Some 3%N)) =
    fst (run (DELETE (t:=surgeon_details) None) without (Some 3%N)) ∧
  fst (run (DELETE (t:=surgeon_details) None) d (Some 3%N)) = rows_affected 1.
Proof.
  intros set carol_details d without.
  split; [|split; [reflexivity | split; [|reflexivity]]].
  - apply (C7_denied_row_looks_absent surgeon_details d (Some 1%N)
             (UPDATE (t:=surgeon_details) set None)
             [] [carol_details] Sample.bob_details);
      [reflexivity | reflexivity].
  - apply (C7_denied_row_looks_absent surgeon_details d (Some 3%N)
             (DELETE (t:=surgeon_details) None)
             [] [carol_details] Sample.bob_details);
      [reflexivity | reflexivity].
Defined.

(** ** C4 and C5: the signup trigger *)

Lemma json_get_text_strings (m : gmap text text) (k : text) :
  json_get_text (Some (JText <$> m)) k = m !! k.
Proof.
  unfold json_get_text. cbn. rewrite lookup_fmap.
  by destruct (m !! k).
Qed.

(** C4, as amended. For a new identity with an id, an email and a metadata
    map of strings, whose role (the one in the metadata, or 'patient' when
    there is none) is one of 'patient', 'surgeon' and 'admin' and whose email
    no profile has yet, creating the identity stores the identity and exactly
    one profile for it: id and email are the identity's, full_name is
    metadata["full_name"] or else 'Unknown User', role is metadata["role"] or
    else 'patient'. *)
Theorem C4_profile_provisioned (d : db) (NEW : AuthUser.t) (now : timestamptz)
    (email : text) (m : gmap text text) :
  let full_name := default "Unknown User" (m !! "full_name") in
  let role := default "patient" (m !! "role") in
  let row :=
    Profile.mk (AuthUser.id NEW) email full_name role None
      (Some now) (Some now) in
  AuthUser.email NEW = Some email →
  AuthUser.raw_user_meta_data NEW = Some (JText <$> m) →
  role ∈ allowed_roles →
  AuthUser.id NEW ∉ AuthUser.id <$> auth_users d →
  profiles_id_fkey d →
  email ∉ Profile.email <$> db_profiles d →
  create_user d NEW now =
    Ok (mkdb (auth_users d ++ [NEW]) (db_profiles d ++ [row])
          (db_patient_details d) (db_surgeon_details d) (db_vital_signs d)
          (db_surgical_history d) (db_surgical_cases d)
          (db_historical_surgical_data d)) ∧
  List.filter (λ p, bool_decide (Profile.id p = AuthUser.id NEW))
    (db_profiles d ++ [row]) = [row].
Proof.
  intros full_name role row Hemail Hmeta Hrole Hnew Hfk Hfree.
  assert (AuthUser.id NEW ∉ Profile.id <$> db_profiles d) as Hnone.
  { intros (p & Hid & Hp)%list_elem_of_fmap. apply Hnew.
    rewrite Hid. by apply Hfk. }
  split.
  - unfold create_user. rewrite (bool_decide_eq_true_2 _ Hnew).
    cbn [require mbind result_bind]. unfold handle_new_user.
    rewrite Hemail, Hmeta, !json_get_text_strings.
    fold full_name role row.
    unfold insert_row, row_constraints, check_constraints,
      unique_constraints, foreign_keys, role_check.
    cbn [rows db_profiles auth_users].
    rewrite sql_in_Some. subst row.
    cbn [Profile.id Profile.email Profile.role].
    rewrite (bool_decide_eq_true_2 _ Hrole).
    rewrite (bool_decide_eq_true_2 _ Hnone).
    rewrite (bool_decide_eq_true_2 _ Hfree).
    rewrite (bool_decide_eq_true_2 (_ ∈ _))
      by (rewrite fmap_app; apply elem_of_app; right; by left).
    reflexivity.
  - rewrite List.filter_app. cbn.
    rewrite (bool_decide_eq_true_2 (AuthUser.id NEW = _)) by done.
    rewrite filter_none; [done|]. intros p Hp.
    apply bool_decide_eq_false_2. intros Hid. apply Hnone.
    rewrite <- Hid. by apply list_elem_of_fmap_2.
Qed.

(** The identity with id 1, email a@x.com and empty metadata, and frank,
    who signs up as a surgeon. *)
Lemma C4_profile_provisioned_witness :
  create_user Sample.empty Sample.alice 0 =
    Ok (mkdb [Sample.alice]
          ([] ++ [Profile.mk 1 "a@x.com" "Unknown User" "patient" None
                    (Some 0%Z) (Some 0%Z)])
          [] [] [] [] [] []) ∧
  db_profiles
    (database_after Sample.hospital
       (create_user Sample.hospital Sample.frank 7)) =
  db_profiles Sample.hospital ++
    [Profile.mk 6 "frank@x.com" "Frank" "surgeon" None (Some 7%Z) (Some 7%Z)].
Proof.
  split.
  - refine (proj1 (C4_profile_provisioned Sample.empty Sample.alice 0
                     "a@x.com" ∅ _ _ _ _ _ _)).
    + reflexivity.
    + reflexivity.
    + compute_done.
    + compute_done.
    + intros p Hp. by apply elem_of_nil in Hp.
    + compute_done.
  - rewrite (proj1 (C4_profile_provisioned Sample.hospital Sample.frank 7
                      "frank@x.com"
                      {[ "full_name" := "Frank"; "role" := "surgeon" ]}
                      eq_refl eq_refl ltac:(compute_done) ltac:(compute_done)
                      sample_profiles_id_fkey ltac:(compute_done))).
    reflexivity.
Defined.

(** C4 as it stands fails for erin, whose metadata asks for the role
    'nurse', and for a newcomer whose email a profile already has: in both
    cases no profile is created. *)
Lemma C4_counterexample_role_outside_the_set :
  json_get_text (AuthUser.raw_user_meta_data Sample.erin) "role"
    = Some "nurse" ∧
  create_user Sample.empty Sample.erin 0
    = Err (check_violation "profiles_role_check") ∧
  db_profiles
    (database_after Sample.empty (create_user Sample.empty Sample.erin 0))
    = [] ∧
  create_user Sample.hospital (AuthUser.mk 7 (Some "bob@x.com") (Some ∅)) 0
    = Err (unique_violation "profiles_email_key").
Proof. repeat split; vm_compute; reflexivity. Qed.

(** C5. When the metadata of a new identity gives a role outside 'patient',
    'surgeon' and 'admin', the INSERT of the trigger fails (on the CHECK
    constraint of the role, when the identity has an email), the creation of
    the identity fails with it, and the database is left as it was: no
    profile and no identity. *)
Theorem C5_role_outside_the_set_fails_signup (d : db) (NEW : AuthUser.t)
    (now : timestamptz) (r : text) :
  json_get_text (AuthUser.raw_user_meta_data NEW) "role" = Some r →
  r ∉ allowed_roles →
  (∀ d1, ∃ e, handle_new_user d1 NEW now = Err e) ∧
  (∀ d1 email, AuthUser.email NEW = Some email →
     handle_new_user d1 NEW now = Err (check_violation "profiles_role_check")) ∧
  (∃ e, create_user d NEW now = Err e) ∧
  database_after d (create_user d NEW now) = d.
Proof.
  intros Hmeta Hrole.
  assert (∀ d1 email, AuthUser.email NEW = Some email →
            handle_new_user d1 NEW now =
            Err (check_violation "profiles_role_check")) as Hcheck.
  { intros d1 email Hemail. unfold handle_new_user.
    rewrite Hemail, Hmeta. cbn [coalesce default].
    unfold insert_row, row_constraints, check_constraints, role_check.
    cbn [Profile.role]. rewrite sql_in_Some.
    by rewrite (bool_decide_eq_false_2 _ Hrole). }
  assert (∀ d1, ∃ e, handle_new_user d1 NEW now = Err e) as Hfail.
  { intros d1. destruct (AuthUser.email NEW) as [email|] eqn:Hemail.
    - eexists. by apply (Hcheck d1 email).
    - unfold handle_new_user. rewrite Hemail. by eexists. }
  assert (∃ e, create_user d NEW now = Err e) as [e He].
  { unfold create_user. destruct (require _ _) as [[]|e]; [|by exists e].
    apply Hfail. }
  repeat split; [done | done | by exists e | by rewrite He].
Qed.

Lemma C5_role_outside_the_set_fails_signup_witness :
  database_after Sample.hospital (create_user Sample.hospital Sample.erin 0)
  = Sample.hospital.
Proof.
  apply (C5_role_outside_the_set_fails_signup Sample.hospital Sample.erin 0
           "nurse"); [reflexivity | compute_done].
Defined.

(** ** C6: the role subqueries and the policies of profiles *)

(** The expression of the SELECT policy "Users can view their own profile"
    is TRUE for every caller on their own row, whatever role it holds. *)
Lemma own_profile_visible (d : db) (p : Profile.t) :
  accessible profiles Select d (Some (Profile.id p)) p = true.
Proof.
  policy_unfold. rewrite is_true_sql_or, is_true_sql_eq_Some.
  by rewrite bool_decide_eq_true_2.
Qed.

(** Read through that policy alone, the role subquery finds what it finds on
    the whole table: it asks for the caller's own row. *)
Lemma role_lookup_needs_own_row_only (d : db) (u : uuid)
    (cond : Profile.t → sqlbool) :
  exists_profile
    (set_rows d profiles
       (List.filter (λ p, bool_decide (Profile.id p = u)) (db_profiles d)))
    (Some u) cond =
  exists_profile d (Some u) cond.
Proof.
  unfold exists_profile. cbn [set_rows db_profiles]. f_equal.
  induction (db_profiles d) as [|p l IH]; [done|]. cbn [List.filter existsb].
  destruct (decide (Profile.id p = u)) as [Heq | Hne].
  - rewrite bool_decide_eq_true_2 by done. cbn [existsb]. by rewrite IH.
  - rewrite bool_decide_eq_false_2 by done. rewrite IH.
    by rewrite (matches_other u cond p Hne).
Qed.

(** The operations whose policies hold no role subquery, for a command that
    reads columns of the table. *)
Lemma policy_sublinks_none (t : table) (op : operation) :
  policy_sublinks t op = [] ↔
  t = surgeon_details ∨ (t = patient_details ∧ op = Insert).
Proof.
  destruct t, op; cbn;
    (split;
     [ intros Heq; first [discriminate Heq | by left | by right]
     | intros [Heq | [Heq Hop]];
       first [discriminate Heq | discriminate Hop | reflexivity] ]).
Qed.

(** C6, on the code. The policies that look up the caller's role select from
    profiles, whose own SELECT policies select from profiles again. With any
    fuel that lets the expansion finish, an operation whose policies hold
    such a subquery ends in "infinite recursion detected in policy for
    relation profiles"; only the operations whose policies hold none are
    expanded. *)
Theorem C6_role_lookup_expansion_recurses (k : nat) (t : table)
    (op : operation) :
  expand_policies (3 + k) [] t op =
  Some (if bool_decide (policy_sublinks t op = []) then Ok ()
        else Err (infinite_recursion profiles)).
Proof. by destruct t, op. Qed.

(** Less fuel does not finish where there is a role subquery to expand. *)
Lemma expand_policies_profiles_fuel :
  expand_policies 0 [] profiles Select = None ∧
  expand_policies 1 [] profiles Select = None ∧
  expand_policies 2 [] profiles Select
    = Some (Err (infinite_recursion profiles)) ∧
  expand_policies 2 [] vital_signs Select = None.
Proof. by repeat split. Qed.
(** ** Scenarios *)

(** X1. Everyone reads every row of surgeon_details, signed in or not. *)
Lemma surgeon_details_public_read (d : db) (uid : option uuid) :
  fst (run (SELECT (t:=surgeon_details) (λ _, true)) d uid) =
  rows_returned (t:=surgeon_details) (db_surgeon_details d).
Proof.
  rewrite run_expanded by done.
  cbn [evaluate fst rows]. f_equal. apply filter_all. intros r _.
  policy_unfold. rewrite !is_true_sql_or. cbn [is_true].
  by rewrite andb_true_r, orb_true_r.
Qed.

(** dave, a patient, asks for the profile of alice, and for his own. *)
Example patient_cannot_read_profiles :
  run (SELECT (t:=profiles) (λ r, bool_decide (Profile.id r = 1%N)))
    Sample.hospital (Some 4%N) =
    (failed (infinite_recursion profiles), Sample.hospital) ∧
  run (SELECT (t:=profiles) (λ r, bool_decide (Profile.id r = 4%N)))
    Sample.hospital (Some 4%N) =
    (failed (infinite_recursion profiles), Sample.hospital).
Proof. by split. Qed.

(** When the profile of bob, the surgeon of dave's case, is deleted, the
    case stays and its surgeon_id becomes NULL. *)
Example deleting_a_surgeon_keeps_the_case :
  SurgicalCase.surgeon_id <$>
    db_surgical_cases (on_delete profiles Sample.hospital [2%N]) =
  [None; None].
Proof. reflexivity. Qed.

(** Signing up bob gives him the role his metadata asks for. *)
Example signup_with_role_surgeon :
  db_profiles
    (database_after Sample.empty (create_user Sample.empty Sample.bob 0)) =
  [Sample.bob_profile].
Proof. vm_compute. reflexivity. Qed.

(** A field that is a JSON null counts as missing. *)
Example json_null_role_defaults :
  Profile.role <$>
    db_profiles
      (database_after Sample.hospital
         (create_user Sample.hospital
            (AuthUser.mk 9 (Some "z@x.com") (Some {[ "role" := JNull ]})) 0))
  = ["patient"; "surgeon"; "admin"; "patient"; "patient"].
Proof. vm_compute. reflexivity. Qed.

(** * The rest of the policies *)

(** ** Callers who are not signed in *)

Lemma profile_matches_anonymous (cond : Profile.t → sqlbool) (p : Profile.t) :
  profile_matches None cond p = false.
Proof. unfold profile_matches. cbn. by destruct (cond p) as [[]|]. Qed.

Lemma exists_profile_anonymous (d : db) (cond : Profile.t → sqlbool) :
  exists_profile d None cond = Some false.
Proof.
  unfold exists_profile. f_equal.
  induction (db_profiles d) as [|p l IH]; [done|].
  cbn [existsb]. by rewrite profile_matches_anonymous, IH.
Qed.

(** X4. With auth.uid() NULL every comparison with it is NULL and every role
    subquery is empty: a caller who is not signed in reads surgeon_details
    and nothing else, and writes no row of any table. *)
Theorem anonymous_reads_surgeon_details_only (t : table) (op : operation)
    (d : db) (r : row_of t) :
  (accessible t op d None r = true ↔ t = surgeon_details ∧ op = Select) ∧
  writable t Insert d None r = false ∧
  writable t Update d None r = false.
Proof.
  destruct t, op; policy_unfold; rewrite ?exists_profile_anonymous; cbn;
    (split; [split; [intros Heq; first [discriminate Heq | by split]
                    | intros [Ht Hop];
                      first [discriminate Ht | discriminate Hop | reflexivity]]
            | by split]).
Qed.

(** ** Who writes what *)

(** X5. patient_details and surgeon_details are written by their owner and
    by nobody else: for INSERT, UPDATE and DELETE the decision is whether
    auth.uid() is the user_id of the row, whatever the role of the caller,
    'admin' included. *)
Theorem details_written_by_owner_only (d : db) (uid : option uuid)
    (op : operation) :
  op ≠ Select →
  (∀ r : PatientDetails.t,
     accessible patient_details op d uid r =
     bool_decide (uid = Some (PatientDetails.user_id r))) ∧
  (∀ r : SurgeonDetails.t,
     accessible surgeon_details op d uid r =
     bool_decide (uid = Some (SurgeonDetails.user_id r))).
Proof.
  intros Hop.
  destruct op; [done | | |]; split; intros r; policy_unfold;
    rewrite is_true_sql_or, is_true_uid_is; cbn [is_true];
    rewrite orb_false_r; by apply bool_decide_ext.
Qed.

(** carol, an admin, may not update the details of patient alice. *)
Lemma details_written_by_owner_only_witness :
  accessible patient_details Update Sample.hospital (Some 3%N)
    (PatientDetails.mk 1 ∅ ∅ ∅ None None) = false.
Proof.
  rewrite (proj1 (details_written_by_owner_only Sample.hospital (Some 3%N)
                    Update ltac:(discriminate))).
  reflexivity.
Defined.

(** * Which commands run at all *)


(** X6. What the role subqueries cost: on profiles, vital_signs,
    surgical_history, surgical_cases and historical_surgical_data every
    command of every caller, an admin included, fails and leaves the database
    as it was; on patient_details so does every SELECT and every UPDATE or
    DELETE with a WHERE clause. *)
Theorem role_subquery_fails_every_command {t : table} (q : query t) (d : db)
    (uid : option uuid) :
  t ≠ surgeon_details →
  (t = patient_details → reads_columns q = true) →
  run q d uid = (failed (infinite_recursion profiles), d).
Proof.
  intros Hsd Hpd. apply run_recursion.
  destruct t; try done.
  - by destruct q as [?|?|? []|[]].
  - pose proof (Hpd eq_refl) as Hreads. by destruct q as [?|?|? []|[]].
  - by destruct q as [?|?|? []|[]].
  - by destruct q as [?|?|? []|[]].
  - by destruct q as [?|?|? []|[]].
  - by destruct q as [?|?|? []|[]].
Qed.

(** carol, an admin, asks for the historical data, and alice for her own
    patient details. *)
Lemma role_subquery_fails_every_command_witness :
  caller_role Sample.hospital 3 = Some "admin" ∧
  run (SELECT (t:=historical_surgical_data) (λ _, true)) Sample.hospital
    (Some 3%N) =
  (failed (infinite_recursion profiles), Sample.hospital) ∧
  run (SELECT (t:=patient_details)
         (λ r, bool_decide (PatientDetails.user_id r = 1%N)))
    Sample.hospital (Some 1%N) =
  (failed (infinite_recursion profiles), Sample.hospital).
Proof.
  split; [reflexivity|]. split.
  - apply (role_subquery_fails_every_command
             (SELECT (t:=historical_surgical_data) (λ _, true)));
      [discriminate | discriminate].
  - apply (role_subquery_fails_every_command
             (SELECT (t:=patient_details)
                (λ r, bool_decide (PatientDetails.user_id r = 1%N))));
      [discriminate | reflexivity].
Defined.

(** * The details of a surgeon *)

(** X12. A surgeon who enters their details is found by everybody: an INSERT
    into surgeon_details of a row with the caller's own user_id, whose
    numbers fit their columns, is let through when the caller has a profile
    and no details yet; and a SELECT for that user_id, by any caller, signed
    in or not, then returns exactly the row. *)
Theorem surgeon_details_insert_then_select (d : db) (u : uuid)
    (new : SurgeonDetails.t) :
  SurgeonDetails.user_id new = u →
  column_types surgeon_details new = Ok () →
  u ∉ SurgeonDetails.user_id <$> db_surgeon_details d →
  u ∈ Profile.id <$> db_profiles d →
  ∃ d',
    run (INSERT (t:=surgeon_details) new) d (Some u) = (rows_affected 1, d') ∧
    db_surgeon_details d' = db_surgeon_details d ++ [new] ∧
    ∀ uid,
      fst (run (SELECT (t:=surgeon_details)
                  (λ r, bool_decide (SurgeonDetails.user_id r = u)))
             d' uid) =
      rows_returned (t:=surgeon_details) [new].
Proof.
  intros Hown Htypes Hfresh Hprofile.
  exists (set_rows d surgeon_details (db_surgeon_details d ++ [new])).
  split; [|split; [done|]].
  - rewrite run_expanded by done. cbn [evaluate]. rewrite Htypes.
    assert (writable surgeon_details Insert d (Some u) new = true) as ->.
    { policy_unfold. rewrite is_true_sql_or, is_true_sql_eq_Some.
      by rewrite (bool_decide_eq_true_2 _ Hown). }
    unfold insert_row, row_constraints, check_constraints,
      unique_constraints, foreign_keys, profile_exists.
    cbn [rows pkey mbind result_bind]. rewrite Hown.
    rewrite (bool_decide_eq_true_2 _ Hfresh).
    by rewrite (bool_decide_eq_true_2 _ Hprofile).
  - intros uid. rewrite run_expanded by done.
    cbn [evaluate fst]. rewrite (rows_set_rows surgeon_details). f_equal.
    assert (∀ d0 x, accessible surgeon_details Select d0 uid x = true)
      as Hpublic.
    { intros d0 x. policy_unfold. rewrite !is_true_sql_or. cbn [is_true].
      by rewrite orb_true_r. }
    rewrite List.filter_app. cbn [List.filter].
    rewrite (Hpublic _ new).
    rewrite (bool_decide_eq_true_2 (SurgeonDetails.user_id new = u)) by done.
    rewrite filter_none; [done|]. intros x Hx.
    rewrite (bool_decide_eq_false_2 (SurgeonDetails.user_id x = u)).
    + by rewrite andb_false_r.
    + intros Heq. apply Hfresh. rewrite <- Heq.
      by apply list_elem_of_fmap_2.
Qed.

(** bob enters his details, and a visitor who is not signed in finds
    them. *)
Lemma surgeon_details_insert_then_select_witness :
  run (INSERT (t:=surgeon_details) Sample.bob_details) Sample.hospital
    (Some 2%N) = (rows_affected 1, Sample.clinic) ∧
  ∃ d',
    run (INSERT (t:=surgeon_details) Sample.bob_details) Sample.hospital
      (Some 2%N) = (rows_affected 1, d') ∧
    fst (run (SELECT (t:=surgeon_details)
                (λ r, bool_decide (SurgeonDetails.user_id r = 2%N))) d' None)
    = rows_returned (t:=surgeon_details) [Sample.bob_details].
Proof.
  split; [reflexivity|].
  destruct (surgeon_details_insert_then_select Sample.hospital 2
              Sample.bob_details eq_refl eq_refl
              ltac:(compute_done) ltac:(compute_done))
    as (d' & Hrun & _ & Hsel).
  exists d'. split; [exact Hrun | apply Hsel].
Defined.

(** A number that does not fit its column is refused before the policies
    are asked: 2^31 years of experience, and a fee of 100,000,000.00. *)
Example surgeon_details_out_of_range :
  let years := λ y, SurgeonDetails.mk 2 "Orthopedics" "HOSP001" y None None
                      None None None in
  let fee := λ f, SurgeonDetails.mk 2 "Orthopedics" "HOSP001" 12 None None
                    (Some f) None None in
  fst (run (INSERT (t:=surgeon_details) (years 2147483648%Z)) Sample.hospital
         (Some 2%N)) = failed numeric_value_out_of_range ∧
  fst (run (INSERT (t:=surgeon_details) (years 2147483647%Z)) Sample.hospital
         (Some 2%N)) = rows_affected 1 ∧
  fst (run (INSERT (t:=surgeon_details) (fee 10000000000%Z)) Sample.hospital
         (Some 2%N)) = failed numeric_value_out_of_range ∧
  fst (run (INSERT (t:=surgeon_details) (fee 9999999999%Z)) Sample.hospital
         (Some 2%N)) = rows_affected 1.
Proof. by repeat split. Qed.

(** ** Commands on the details *)

Lemma surgeon_details_decision (d : db) (uid : option uuid) (op : operation)
    (r : SurgeonDetails.t) :
  accessible surgeon_details op d uid r =
    match op with
    | Select => true
    | _ => bool_decide (uid = Some (SurgeonDetails.user_id r))
    end ∧
  writable surgeon_details op d uid r =
    match op with
    | Select => true
    | _ => bool_decide (uid = Some (SurgeonDetails.user_id r))
    end.
Proof.
  destruct op; split; policy_unfold;
    rewrite ?is_true_sql_or, ?is_true_uid_is; cbn [is_true];
    rewrite ?orb_true_r, ?orb_false_r; done.
Qed.

Lemma patient_details_decision (d : db) (uid : option uuid) (op : operation)
    (r : PatientDetails.t) :
  op ≠ Select →
  accessible patient_details op d uid r =
  bool_decide (uid = Some (PatientDetails.user_id r)).
Proof.
  intros Hop. destruct op; [done | | |]; policy_unfold;
    rewrite is_true_sql_or, is_true_uid_is; cbn [is_true];
    by rewrite orb_false_r.
Qed.

(** X28. Who deletes details: a DELETE on surgeon_details removes the rows
    that carry the caller's own id and that the WHERE clause keeps, and no
    other row, whatever the role of the caller; a DELETE on patient_details
    does the same when it has no WHERE clause, and fails with "infinite
    recursion detected in policy for relation profiles" when it has one. *)
Theorem own_details_delete (d : db) (uid : option uuid) :
  (∀ cond,
     let own := λ r, bool_decide (uid = Some (SurgeonDetails.user_id r))
                     && where_ (t:=surgeon_details) cond r in
     run (DELETE (t:=surgeon_details) cond) d uid =
     (rows_affected (length (List.filter own (db_surgeon_details d))),
      set_rows d surgeon_details
        (List.filter (λ r, negb (own r)) (db_surgeon_details d)))) ∧
  (let own := λ r, bool_decide (uid = Some (PatientDetails.user_id r)) in
   run (DELETE (t:=patient_details) None) d uid =
   (rows_affected (length (List.filter own (db_patient_details d))),
    set_rows d patient_details
      (List.filter (λ r, negb (own r)) (db_patient_details d)))) ∧
  (∀ cond,
     run (DELETE (t:=patient_details) (Some cond)) d uid =
     (failed (infinite_recursion profiles), d)).
Proof.
  split; [|split].
  - intros cond own. rewrite run_expanded by (by destruct cond).
    cbn [evaluate rows on_delete].
    assert (∀ r, reached surgeon_details Delete d uid cond r = own r) as Hown.
    { intros r. unfold reached, own.
      rewrite (proj1 (surgeon_details_decision d uid Select r)).
      rewrite (proj1 (surgeon_details_decision d uid Delete r)).
      by destruct (bool_decide (is_Some cond)). }
    rewrite (filter_ext _ _ Hown).
    by rewrite (filter_ext
                  (λ r, negb (reached surgeon_details Delete d uid cond r))
                  (λ r, negb (own r)))
      by (intros r; by rewrite Hown).
  - intros own. rewrite run_expanded by done.
    cbn [evaluate rows on_delete].
    assert (∀ r, reached patient_details Delete d uid None r = own r) as Hown.
    { intros r. unfold reached, own.
      rewrite (patient_details_decision d uid Delete) by done. cbn.
      by rewrite andb_true_r. }
    rewrite (filter_ext _ _ Hown).
    by rewrite (filter_ext
                  (λ r, negb (reached patient_details Delete d uid None r))
                  (λ r, negb (own r)))
      by (intros r; by rewrite Hown).
  - intros cond. by apply run_recursion.
Qed.

(** X10. A surgeon cannot hand their details to another user: an UPDATE on
    surgeon_details that finds the caller's row and gives it another user_id
    is refused by row-level security, the USING expression of the policy
    standing in for the missing WITH CHECK, and nothing changes. *)
Theorem own_details_user_id_is_fixed (d : db) (u : uuid)
    (r : SurgeonDetails.t) (pre post : list SurgeonDetails.t)
    (set : SurgeonDetails.t → SurgeonDetails.t) :
  db_surgeon_details d = pre ++ r :: post →
  SurgeonDetails.user_id r = u →
  NoDup (SurgeonDetails.user_id <$> db_surgeon_details d) →
  column_types surgeon_details (set r) = Ok () →
  SurgeonDetails.user_id (set r) ≠ u →
  run (UPDATE (t:=surgeon_details) set
         (Some (λ x, bool_decide (SurgeonDetails.user_id x = u))))
    d (Some u) =
  (failed (insufficient_privilege surgeon_details), d).
Proof.
  intros Hrows Hid Hpk Htypes Hset. rewrite run_expanded by done.
  cbn [evaluate rows]. rewrite Hrows. rewrite Hrows in Hpk.
  rewrite update_rows_skip.
  2:{ intros x Hx. apply reached_past. cbn.
      apply bool_decide_eq_false_2. rewrite <- Hid.
      apply (NoDup_fmap_others SurgeonDetails.user_id pre post r x Hpk).
      apply elem_of_app. by left. }
  cbn [update_rows app].
  assert (reached surgeon_details Update d (Some u)
            (Some (λ x, bool_decide (SurgeonDetails.user_id x = u))) r = true)
    as ->.
  { unfold reached.
    rewrite (proj1 (surgeon_details_decision d (Some u) Select r)).
    rewrite (proj1 (surgeon_details_decision d (Some u) Update r)).
    cbn. rewrite Hid. by rewrite !bool_decide_eq_true_2. }
  rewrite Htypes. cbn [mbind result_bind].
  rewrite (proj2 (surgeon_details_decision d (Some u) Update (set r))).
  rewrite (bool_decide_eq_false_2 (Some u = _)); [done|].
  intros [= Heq]. by apply Hset.
Qed.

(** bob tries to pass his details to alice. *)
Lemma own_details_user_id_is_fixed_witness :
  let set := λ r : SurgeonDetails.t,
    SurgeonDetails.mk 1 (SurgeonDetails.specialty r)
      (SurgeonDetails.hospital_affiliation r)
      (SurgeonDetails.years_of_experience r) (SurgeonDetails.certifications r)
      (SurgeonDetails.bio r) (SurgeonDetails.consultation_fee r)
      (SurgeonDetails.created_at r) (SurgeonDetails.updated_at r) in
  run (UPDATE (t:=surgeon_details) set
         (Some (λ x, bool_decide (SurgeonDetails.user_id x = 2%N))))
    Sample.clinic (Some 2%N) =
  (failed (insufficient_privilege surgeon_details), Sample.clinic).
Proof.
  intros set.
  apply (own_details_user_id_is_fixed Sample.clinic 2 Sample.bob_details
           [] [] set eq_refl eq_refl);
    [compute_done | reflexivity | discriminate].
Defined.

(** What the commands on the details do on the sample clinic: bob rewrites
    his bio and alice rewrites nothing; alice enters her patient details and
    rewrites them without a WHERE clause, and cannot read them or address
    them with a WHERE clause. *)
Example commands_on_details :
  let bio := λ r : SurgeonDetails.t,
    SurgeonDetails.mk (SurgeonDetails.user_id r) (SurgeonDetails.specialty r)
      (SurgeonDetails.hospital_affiliation r)
      (SurgeonDetails.years_of_experience r) (SurgeonDetails.certifications r)
      (Some "Knees and hips") (SurgeonDetails.consultation_fee r)
      (SurgeonDetails.created_at r) (SurgeonDetails.updated_at r) in
  let mine := PatientDetails.mk 1 ∅ ∅ ∅ None None in
  let touch := λ r : PatientDetails.t,
    PatientDetails.mk (PatientDetails.user_id r) (PatientDetails.personal_info r)
      (PatientDetails.physical_info r) (PatientDetails.lifestyle_info r)
      (PatientDetails.created_at r) (Some 5%Z) in
  let entered := snd (run (INSERT (t:=patient_details) mine) Sample.clinic
                        (Some 1%N)) in
  fst (run (UPDATE (t:=surgeon_details) bio None) Sample.clinic (Some 2%N))
    = rows_affected 1 ∧
  SurgeonDetails.bio <$>
    db_surgeon_details
      (snd (run (UPDATE (t:=surgeon_details) bio (Some (λ _, true)))
              Sample.clinic (Some 2%N))) = [Some "Knees and hips"] ∧
  run (UPDATE (t:=surgeon_details) bio None) Sample.clinic (Some 1%N)
    = (rows_affected 0, Sample.clinic) ∧
  db_patient_details entered = [mine] ∧
  fst (run (UPDATE (t:=patient_details) touch None) entered (Some 1%N))
    = rows_affected 1 ∧
  fst (run (UPDATE (t:=patient_details) touch (Some (λ _, true))) entered
         (Some 1%N)) = failed (infinite_recursion profiles) ∧
  fst (run (SELECT (t:=patient_details) (λ _, true)) entered (Some 1%N))
    = failed (infinite_recursion profiles).
Proof. by repeat split. Qed.

(** * Invariants of the stored data *)

(** A command either is evaluated or leaves the database as it was. *)
Lemma run_cases {t : table} (q : query t) (d : db) (uid : option uuid) :
  run q d uid = evaluate q d uid ∨ snd (run q d uid) = d.
Proof. unfold run. destruct (expand_command _ _ _); [by left | by right]. Qed.

Lemma run_keeps {t : table} (q : query t) (d : db) (uid : option uuid)
    (P : db → Prop) :
  P d → P (snd (evaluate q d uid)) → P (snd (run q d uid)).
Proof. intros Hd He. by destruct (run_cases q d uid) as [-> | ->]. Qed.

Lemma rows_set_rows_ne (t t' : table) (d : db) (l : list (row_of t)) :
  t ≠ t' → rows (set_rows d t l) t' = rows d t'.
Proof. by destruct t, t'. Qed.

Lemma db_profiles_set_rows (t : table) (d : db) (l : list (row_of t)) :
  t ≠ profiles → db_profiles (set_rows d t l) = db_profiles d.
Proof. by destruct t. Qed.

Lemma row_constraints_Ok (t : table) (d : db) (others : list (row_of t))
    (r : row_of t) :
  row_constraints t d others r = Ok () ↔
  check_constraints t r = Ok () ∧ unique_constraints t others r = Ok () ∧
  foreign_keys t d r = Ok ().
Proof.
  unfold row_constraints.
  destruct (check_constraints t r) as [[]|]; cbn;
    [|split; [done | by intros [? _]]].
  destruct (unique_constraints t others r) as [[]|]; cbn;
    [|split; [done | by intros (_ & ? & _)]].
  tauto.
Qed.

Lemma require_Ok (b : bool) (e : db_error) : require b e = Ok () ↔ b = true.
Proof. by destruct b. Qed.

Lemma unique_constraints_pkey (t : table) (others : list (row_of t))
    (r : row_of t) :
  unique_constraints t others r = Ok () → pkey t r ∉ pkey t <$> others.
Proof.
  destruct t; cbn; try (by intros ?%require_Ok%bool_decide_eq_true).
  destruct (bool_decide (Profile.id r ∉ Profile.id <$> others)) eqn:Hpk;
    cbn; [|done]. intros _.
  by apply bool_decide_eq_true in Hpk.
Qed.

Lemma unique_constraints_email (others : list Profile.t) (r : Profile.t) :
  unique_constraints profiles others r = Ok () →
  Profile.email r ∉ Profile.email <$> others.
Proof.
  cbn. destruct (bool_decide (Profile.id r ∉ Profile.id <$> others));
    cbn; [|done].
  by intros ?%require_Ok%bool_decide_eq_true.
Qed.

Lemma elem_of_filter_bool {A} (f : A → bool) (l : list A) (x : A) :
  x ∈ List.filter f l ↔ x ∈ l ∧ f x = true.
Proof. by rewrite !list_elem_of_In, filter_In. Qed.

Lemma NoDup_fmap_filter {A B} (g : A → B) (f : A → bool) (l : list A) :
  NoDup (g <$> l) → NoDup (g <$> List.filter f l).
Proof.
  induction l as [|x l IH]; [done|]. rewrite fmap_cons, NoDup_cons.
  intros [Hx Hl]. cbn. destruct (f x); [|by apply IH].
  rewrite fmap_cons. apply NoDup_cons. split; [|by apply IH].
  intros (y & Hxy & Hy)%list_elem_of_fmap. apply Hx. rewrite Hxy.
  apply list_elem_of_fmap_2. by apply elem_of_filter_bool in Hy as [? _].
Qed.

Lemma insert_row_Ok (t : table) (d d' : db) (r : row_of t) :
  insert_row t d r = Ok d' ↔
  row_constraints t d (rows d t) r = Ok () ∧
  d' = set_rows d t (rows d t ++ [r]).
Proof.
  unfold insert_row. destruct (row_constraints _ _ _ _) as [[]|]; cbn.
  - split; [by intros [= <-] | by intros [_ ->]].
  - split; [done | by intros [? _]].
Qed.

Lemma on_delete_keeps_checks (t : table) (d : db) (gone : list uuid) :
  checks_hold d → checks_hold (on_delete t d gone).
Proof.
  intros Hc. destruct t; try done.
  intros t' r' Hr'. destruct t'; try done; try (by apply Hc).
  cbn in Hr'. apply list_elem_of_fmap in Hr' as (r & -> & Hr).
  apply elem_of_filter_bool in Hr as [Hr _].
  apply (Hc surgical_cases r Hr).
Qed.

Lemma NoDup_fmap_replace {A B} (g : A → B) (pre post : list A) (x y : A) :
  NoDup (g <$> pre ++ x :: post) →
  g y ∉ g <$> pre ++ post →
  NoDup (g <$> pre ++ y :: post).
Proof.
  rewrite !fmap_app, !fmap_cons, !NoDup_app, !NoDup_cons.
  intros (Hpre & Hdisj & Hx & Hpost) Hy. split; [done|]. split.
  - intros k Hk [-> | Hin]%elem_of_cons.
    + apply Hy, elem_of_app. by left.
    + apply (Hdisj k Hk). by right.
  - split; [|done]. intros Hin. apply Hy, elem_of_app. by right.
Qed.

Lemma NoDup_fmap_snoc {A B} (g : A → B) (l : list A) (y : A) :
  NoDup (g <$> l) → g y ∉ g <$> l → NoDup (g <$> l ++ [y]).
Proof.
  intros Hl Hy. rewrite fmap_app. apply NoDup_app. split; [done|]. split.
  - intros k Hk ->%list_elem_of_singleton. done.
  - apply NoDup_singleton.
Qed.

Lemma row_constraints_pkey (t : table) (d : db) (others : list (row_of t))
    (r : row_of t) :
  row_constraints t d others r = Ok () → pkey t r ∉ pkey t <$> others.
Proof.
  intros (_ & Hu & _)%row_constraints_Ok. by apply unique_constraints_pkey.
Qed.

Lemma row_constraints_email (d : db) (others : list Profile.t)
    (r : Profile.t) :
  row_constraints profiles d others r = Ok () →
  Profile.email r ∉ Profile.email <$> others.
Proof.
  intros (_ & Hu & _)%row_constraints_Ok. by apply unique_constraints_email.
Qed.

Lemma on_delete_keeps_pkeys (t : table) (d : db) (gone : list uuid) :
  pkeys_unique d → pkeys_unique (on_delete t d gone).
Proof.
  intros Hpk. destruct t; try done.
  intros t'. pose proof (Hpk t') as Hnd.
  destruct t'; try done; cbn in *;
    try (by apply NoDup_fmap_filter).
  - rewrite <- list_fmap_compose.
    by apply (NoDup_fmap_filter SurgicalHistory.id).
  - rewrite <- list_fmap_compose.
    by apply (NoDup_fmap_filter SurgicalCase.id).
Qed.

Section update_rows_result.
Context (t : table) (d : db) (uid : option uuid).
Context (set : row_of t → row_of t) (cond : option (row_of t → bool)).

(** The table that an UPDATE leaves, and the changes it has made. *)
Lemma update_rows_Ok (done todo l : list (row_of t))
    (changed ch : list (row_of t * row_of t)) :
  update_rows t d uid set cond done todo changed = Ok (l, ch) →
  l = done ++
      ((λ r, if reached t Update d uid cond r then set r else r) <$> todo) ∧
  ch = changed ++
       ((λ r, (r, set r)) <$> List.filter (reached t Update d uid cond) todo).
Proof.
  revert done changed. induction todo as [|r rest IH]; intros done changed.
  - cbn. intros [= <- <-]. by rewrite !app_nil_r.
  - cbn [update_rows List.filter fmap list_fmap].
    destruct (reached t Update d uid cond r).
    + destruct (column_types t (set r)) as [[]|]; [|done].
      destruct (require _ _) as [[]|]; [|done].
      destruct (check_constraints t (set r)) as [[]|]; [|done].
      destruct (unique_constraints t _ (set r)) as [[]|]; [|done].
      cbn [mbind result_bind]. intros [-> ->]%IH.
      by rewrite <- !app_assoc.
    + intros [-> ->]%IH. by rewrite <- !app_assoc.
Qed.

Context (Inv : list (row_of t) → list (row_of t) → Prop).
Context (Hskip : ∀ done r rest, Inv done (r :: rest) → Inv (done ++ [r]) rest).
Context (Hset : ∀ done r rest,
  Inv done (r :: rest) →
  check_constraints t (set r) = Ok () →
  unique_constraints t (done ++ rest) (set r) = Ok () →
  Inv (done ++ [set r]) rest).

(** A property of the rows passed and the rows to come that every step of
    an UPDATE keeps holds of the table it leaves. *)
Lemma update_rows_invariant (done todo l : list (row_of t))
    (changed ch : list (row_of t * row_of t)) :
  Inv done todo →
  update_rows t d uid set cond done todo changed = Ok (l, ch) →
  Inv l [].
Proof.
  revert done changed.
  induction todo as [|r rest IH]; intros done changed Hinv Hrun.
  - cbn in Hrun. by injection Hrun as <- _.
  - cbn [update_rows] in Hrun.
    destruct (reached t Update d uid cond r).
    + destruct (column_types t (set r)) as [[]|]; [|done].
      destruct (require _ _) as [[]|]; [|done].
      destruct (check_constraints t (set r)) as [[]|] eqn:Hcc; [|done].
      destruct (unique_constraints t _ (set r)) as [[]|] eqn:Huc; [|done].
      cbn [mbind result_bind] in Hrun.
      apply (IH _ _ (Hset _ _ _ Hinv Hcc Huc) Hrun).
    + apply (IH _ _ (Hskip _ _ _ Hinv) Hrun).
Qed.

End update_rows_result.

Lemma after_update_Ok (t : table) (d : db)
    (changed : list (row_of t * row_of t)) :
  after_update t d changed = Ok () ↔
  ∀ c, c ∈ changed →
    key_update t d c.1 c.2 = Ok () ∧ foreign_keys t d c.2 = Ok ().
Proof.
  induction changed as [|c changed IH]; cbn [after_update foldr].
  - split; [|done]. by intros _ c ?%elem_of_nil.
  - fold (after_update t d changed).
    destruct (key_update t d c.1 c.2) as [[]|e] eqn:Hku; cbn [mbind result_bind].
    + destruct (foreign_keys t d c.2) as [[]|e] eqn:Hfk;
        cbn [mbind result_bind].
      * rewrite IH. split.
        -- intros Hall c' [-> | Hc']%elem_of_cons; [done | by apply Hall].
        -- intros Hall c' Hc'. apply Hall. by right.
      * split; [done|]. intros Hall.
        destruct (Hall c) as [_ Hc]; [by left|]. congruence.
    + split; [done|]. intros Hall.
      destruct (Hall c) as [Hc _]; [by left|]. congruence.
Qed.

(** What a successful UPDATE has gone through. *)
Lemma evaluate_update (t : table) (d : db) (uid : option uuid)
    (set : row_of t → row_of t) (cond : option (row_of t → bool)) :
  (∃ l ch,
     update_rows t d uid set cond [] (rows d t) [] = Ok (l, ch) ∧
     after_update t d ch = Ok () ∧
     evaluate (UPDATE set cond) d uid =
     (rows_affected (length ch), set_rows d t l)) ∨
  snd (evaluate (UPDATE set cond) d uid) = d.
Proof.
  cbn [evaluate].
  destruct (update_rows _ _ _ _ _ _ _ _) as [[l ch]|e] eqn:Hrun;
    cbn [mbind result_bind]; [|by right].
  cbn [snd]. destruct (after_update t d ch) as [[]|e'] eqn:Hafter;
    cbn [mbind result_bind]; [|by right].
  left. by exists l, ch.
Qed.

(** The rows an UPDATE leaves are rows it found or rows that met the CHECK
    constraints. *)
Lemma update_rows_checked (t : table) (d : db) (uid : option uuid)
    (set : row_of t → row_of t) (cond : option (row_of t → bool))
    (P : row_of t → Prop) (todo l : list (row_of t))
    (ch : list (row_of t * row_of t)) :
  (∀ r, r ∈ todo → P r) →
  (∀ r, check_constraints t r = Ok () → P r) →
  update_rows t d uid set cond [] todo [] = Ok (l, ch) →
  ∀ r, r ∈ l → P r.
Proof.
  intros Htodo Hnew Hrun.
  pose proof (update_rows_invariant t d uid set cond
                (λ done rest, ∀ r, r ∈ done ++ rest → P r)) as Hinv.
  intros r Hr. eapply Hinv; [| | | exact Hrun | by rewrite app_nil_r].
  - intros done x rest Hall y Hy. apply Hall.
    rewrite <- app_assoc in Hy. exact Hy.
  - intros done x rest Hall Hcc _ y Hy.
    rewrite <- app_assoc in Hy. cbn in Hy.
    apply elem_of_app in Hy as [Hy | Hy];
      [| apply elem_of_cons in Hy as [-> | Hy]].
    + apply Hall, elem_of_app. by left.
    + by apply Hnew.
    + apply Hall, elem_of_app. right. by right.
  - done.
Qed.

(** A row that an UPDATE leaves is a row it found or a row it wrote, and a
    row it found is still there or was rewritten. *)
Lemma update_rows_elem (t : table) (d : db) (uid : option uuid)
    (set : row_of t → row_of t) (cond : option (row_of t → bool))
    (todo l : list (row_of t)) (ch : list (row_of t * row_of t))
    (x : row_of t) :
  update_rows t d uid set cond [] todo [] = Ok (l, ch) →
  x ∈ l → x ∈ todo ∨ ∃ r, (r, x) ∈ ch.
Proof.
  intros [-> ->]%update_rows_Ok. cbn [app].
  intros (r & -> & Hr)%list_elem_of_fmap.
  destruct (reached t Update d uid cond r) eqn:Hreached; [|by left].
  right. exists r. apply list_elem_of_fmap. exists r. split; [done|].
  by apply elem_of_filter_bool.
Qed.

Lemma update_rows_found (t : table) (d : db) (uid : option uuid)
    (set : row_of t → row_of t) (cond : option (row_of t → bool))
    (todo l : list (row_of t)) (ch : list (row_of t * row_of t))
    (r : row_of t) :
  update_rows t d uid set cond [] todo [] = Ok (l, ch) →
  r ∈ todo → r ∈ l ∨ ((r, set r) ∈ ch ∧ set r ∈ l).
Proof.
  intros [-> ->]%update_rows_Ok Hr. cbn [app].
  destruct (reached t Update d uid cond r) eqn:Hreached.
  - right. split.
    + apply list_elem_of_fmap. exists r. split; [done|].
      by apply elem_of_filter_bool.
    + apply list_elem_of_fmap. exists r. by rewrite Hreached.
  - left. apply list_elem_of_fmap. exists r. by rewrite Hreached.
Qed.

(** ** CHECK constraints *)

Lemma evaluate_keeps_checks {t : table} (q : query t) (d : db)
    (uid : option uuid) :
  checks_hold d → checks_hold (snd (evaluate q d uid)).
Proof.
  intros Hc. destruct q as [cond | new | set cond | cond].
  - done.
  - cbn [evaluate]. destruct (column_types t new) as [[]|]; [|done].
    destruct (writable _ _ _ _ _); [|done].
    destruct (insert_row t d new) as [d'|] eqn:Hins; [|done].
    apply insert_row_Ok in Hins as [Hrc ->]. cbn [snd].
    intros t' r' Hr'. destruct (decide (t = t')) as [<- | Hne].
    + rewrite rows_set_rows in Hr'.
      apply elem_of_app in Hr' as [Hr' | ->%list_elem_of_singleton].
      * by apply Hc.
      * by apply row_constraints_Ok in Hrc as [? _].
    + rewrite rows_set_rows_ne in Hr' by done. by apply Hc.
  - destruct (evaluate_update t d uid set cond)
      as [(l & ch & Hrun & _ & ->) | ->]; [|done].
    cbn [snd]. intros t' r' Hr'. destruct (decide (t = t')) as [<- | Hne].
    + rewrite rows_set_rows in Hr'. revert r' Hr'.
      by apply (update_rows_checked t d uid set cond
                  (λ r, check_constraints t r = Ok ()) (rows d t) l ch
                  (Hc t)).
    + rewrite rows_set_rows_ne in Hr' by done. by apply Hc.
  - cbn [evaluate snd]. apply on_delete_keeps_checks.
    intros t' r' Hr'. destruct (decide (t = t')) as [<- | Hne].
    + rewrite rows_set_rows in Hr'.
      apply elem_of_filter_bool in Hr' as [Hr' _]. by apply Hc.
    + rewrite rows_set_rows_ne in Hr' by done. by apply Hc.
Qed.

(** X16. CHECK constraints are an invariant: when every stored row meets the
    CHECK constraints of its table (role, status, priority, season), it still
    does after any command of any caller on any table, whether the command
    succeeds or fails. *)
Theorem run_keeps_checks {t : table} (q : query t) (d : db)
    (uid : option uuid) :
  checks_hold d → checks_hold (snd (run q d uid)).
Proof.
  intros Hc. apply run_keeps; [done|]. by apply evaluate_keeps_checks.
Qed.

(** ** Unique keys *)

(** A column that the constraints keep unique stays unique under UPDATE. *)
Lemma update_rows_keeps_unique {B} (t : table) (d : db) (uid : option uuid)
    (set : row_of t → row_of t) (cond : option (row_of t → bool))
    (g : row_of t → B) (todo l : list (row_of t))
    (ch : list (row_of t * row_of t)) :
  (∀ others r, unique_constraints t others r = Ok () → g r ∉ g <$> others) →
  NoDup (g <$> todo) →
  update_rows t d uid set cond [] todo [] = Ok (l, ch) →
  NoDup (g <$> l).
Proof.
  intros Hnew Htodo Hrun.
  pose proof (update_rows_invariant t d uid set cond
                (λ done todo, NoDup (g <$> done ++ todo))) as Hinv.
  rewrite <- (app_nil_r l). eapply Hinv; [| | | exact Hrun].
  - intros done x rest Hnd. by rewrite <- app_assoc.
  - intros done x rest Hnd _ Huc. rewrite <- app_assoc. cbn.
    apply (NoDup_fmap_replace g done rest x); [done|]. by apply (Hnew _ _ Huc).
  - done.
Qed.

Lemma evaluate_keeps_pkeys {t : table} (q : query t) (d : db)
    (uid : option uuid) :
  pkeys_unique d → pkeys_unique (snd (evaluate q d uid)).
Proof.
  intros Hpk. destruct q as [cond | new | set cond | cond].
  - done.
  - cbn [evaluate]. destruct (column_types t new) as [[]|]; [|done].
    destruct (writable _ _ _ _ _); [|done].
    destruct (insert_row t d new) as [d'|] eqn:Hins; [|done].
    apply insert_row_Ok in Hins as [Hrc ->]. cbn [snd].
    intros t'. destruct (decide (t = t')) as [<- | Hne].
    + rewrite rows_set_rows. apply NoDup_fmap_snoc; [apply Hpk|].
      by apply (row_constraints_pkey t d).
    + rewrite rows_set_rows_ne by done. apply Hpk.
  - destruct (evaluate_update t d uid set cond)
      as [(l & ch & Hrun & _ & ->) | ->]; [|done].
    cbn [snd]. intros t'. destruct (decide (t = t')) as [<- | Hne].
    + rewrite rows_set_rows.
      apply (update_rows_keeps_unique t d uid set cond (pkey t)
               (rows d t) l ch); [| apply Hpk | done].
      intros others r. apply unique_constraints_pkey.
    + rewrite rows_set_rows_ne by done. apply Hpk.
  - cbn [evaluate snd]. apply on_delete_keeps_pkeys.
    intros t'. destruct (decide (t = t')) as [<- | Hne].
    + rewrite rows_set_rows. apply NoDup_fmap_filter, Hpk.
    + rewrite rows_set_rows_ne by done. apply Hpk.
Qed.

(** What a command leaves in another table [t'], for all commands but a
    DELETE on profiles, which cascades. *)
Lemma evaluate_other_table {t : table} (q : query t) (d : db)
    (uid : option uuid) (t' : table) :
  t ≠ t' →
  (∀ cond, t = profiles → q ≠ DELETE cond) →
  rows (snd (evaluate q d uid)) t' = rows d t'.
Proof.
  intros Hne Hnodel. destruct q as [cond | new | set cond | cond].
  - done.
  - cbn [evaluate]. destruct (column_types t new) as [[]|]; [|done].
    destruct (writable _ _ _ _ _); [|done].
    destruct (insert_row t d new) as [d'|] eqn:Hins; [|done].
    apply insert_row_Ok in Hins as [_ ->]. by apply rows_set_rows_ne.
  - destruct (evaluate_update t d uid set cond)
      as [(l & ch & _ & _ & ->) | ->]; [|done].
    by apply rows_set_rows_ne.
  - cbn [evaluate snd]. destruct t; try (by apply rows_set_rows_ne).
    by destruct (Hnodel cond).
Qed.

Lemma evaluate_keeps_email {t : table} (q : query t) (d : db)
    (uid : option uuid) :
  profiles_email_key d → profiles_email_key (snd (evaluate q d uid)).
Proof.
  unfold profiles_email_key. intros Hnd.
  destruct (decide (t = profiles)) as [-> | Hne].
  - destruct q as [cond | new | set cond | cond].
    + done.
    + cbn [evaluate column_types].
      destruct (writable _ _ _ _ _); [|done].
      destruct (insert_row profiles d new) as [d'|] eqn:Hins; [|done].
      apply insert_row_Ok in Hins as [Hrc ->]. cbn [snd set_rows db_profiles].
      apply NoDup_fmap_snoc; [done|]. by apply (row_constraints_email d).
    + destruct (evaluate_update profiles d uid set cond)
        as [(l & ch & Hrun & _ & ->) | ->]; [|done].
      cbn [snd set_rows db_profiles].
      apply (update_rows_keeps_unique profiles d uid set cond Profile.email
               (db_profiles d) l ch); [| done | done].
      intros others r. apply unique_constraints_email.
    + cbn [evaluate snd]. by apply NoDup_fmap_filter.
  - change (db_profiles (snd (evaluate q d uid)))
      with (rows (snd (evaluate q d uid)) profiles).
    rewrite evaluate_other_table; done.
Qed.

(** X17. Unique keys are an invariant: when every table has its primary key
    and no two profiles share an email, the same holds after any command of
    any caller on any table. *)
Theorem run_keeps_unique_keys {t : table} (q : query t) (d : db)
    (uid : option uuid) :
  pkeys_unique d → profiles_email_key d →
  pkeys_unique (snd (run q d uid)) ∧ profiles_email_key (snd (run q d uid)).
Proof.
  intros Hpk Hemail. split.
  - apply run_keeps; [done|]. by apply evaluate_keeps_pkeys.
  - apply run_keeps; [done|]. by apply evaluate_keeps_email.
Qed.

(** ** Foreign keys *)

Lemma foreign_keys_refs (t : table) (d : db) (r : row_of t) :
  t ≠ profiles →
  foreign_keys t d r = Ok () ↔
  ∀ k, k ∈ refs t r → k ∈ Profile.id <$> db_profiles d.
Proof.
  intros Ht. destruct t; try done; cbn; unfold profile_exists.
  - rewrite require_Ok, bool_decide_eq_true. split.
    + by intros Hk k ->%list_elem_of_singleton.
    + intros Hall. apply Hall. by left.
  - rewrite require_Ok, bool_decide_eq_true. split.
    + by intros Hk k ->%list_elem_of_singleton.
    + intros Hall. apply Hall. by left.
  - rewrite require_Ok, bool_decide_eq_true. split.
    + by intros Hk k ->%list_elem_of_singleton.
    + intros Hall. apply Hall. by left.
  - destruct (decide (SurgicalHistory.patient_id r
                      ∈ Profile.id <$> db_profiles d)) as [Hp | Hp].
    + rewrite (bool_decide_eq_true_2 _ Hp). cbn.
      destruct (SurgicalHistory.surgeon_id r) as [s|]; cbn.
      * unfold profile_exists. rewrite require_Ok, bool_decide_eq_true.
        split.
        -- intros Hs k [-> | ->%list_elem_of_singleton]%elem_of_cons; done.
        -- intros Hall. apply Hall. right. by left.
      * split; [|done]. by intros _ k ->%list_elem_of_singleton.
    + rewrite (bool_decide_eq_false_2 _ Hp). cbn. split; [done|].
      intros Hall. destruct Hp. apply Hall. by left.
  - destruct (decide (SurgicalCase.patient_id r
                      ∈ Profile.id <$> db_profiles d)) as [Hp | Hp].
    + rewrite (bool_decide_eq_true_2 _ Hp). cbn.
      destruct (SurgicalCase.surgeon_id r) as [s|]; cbn.
      * unfold profile_exists. rewrite require_Ok, bool_decide_eq_true.
        split.
        -- intros Hs k [-> | ->%list_elem_of_singleton]%elem_of_cons; done.
        -- intros Hall. apply Hall. right. by left.
      * split; [|done]. by intros _ k ->%list_elem_of_singleton.
    + rewrite (bool_decide_eq_false_2 _ Hp). cbn. split; [done|].
      intros Hall. destruct Hp. apply Hall. by left.
  - split; [|done]. by intros _ k ?%elem_of_nil.
Qed.

Lemma elem_of_option_list {A} (x : A) (o : option A) :
  x ∈ option_list o ↔ o = Some x.
Proof.
  destruct o as [y|]; cbn.
  - rewrite list_elem_of_singleton. split; congruence.
  - split; [by intros ?%elem_of_nil | done].
Qed.

(** A profile that a stored row refers to is one that [referencing] finds. *)
Lemma referencing_refs (t : table) (d : db) (r : row_of t) (k : uuid) :
  r ∈ rows d t → k ∈ refs t r → referencing d k ≠ None.
Proof.
  intros Hr Hk. unfold referencing.
  repeat (case_bool_decide; [done|]).
  destruct t; cbn in Hk, Hr.
  - by apply elem_of_nil in Hk.
  - apply list_elem_of_singleton in Hk as ->.
    by apply (list_elem_of_fmap_2 PatientDetails.user_id) in Hr.
  - apply list_elem_of_singleton in Hk as ->.
    by apply (list_elem_of_fmap_2 SurgeonDetails.user_id) in Hr.
  - apply list_elem_of_singleton in Hk as ->.
    by apply (list_elem_of_fmap_2 VitalSigns.patient_id) in Hr.
  - apply elem_of_cons in Hk as [-> | Hk%elem_of_option_list].
    + by apply (list_elem_of_fmap_2 SurgicalHistory.patient_id) in Hr.
    + apply (list_elem_of_fmap_2 SurgicalHistory.surgeon_id) in Hr.
      by rewrite Hk in Hr.
  - apply elem_of_cons in Hk as [-> | Hk%elem_of_option_list].
    + by apply (list_elem_of_fmap_2 SurgicalCase.patient_id) in Hr.
    + apply (list_elem_of_fmap_2 SurgicalCase.surgeon_id) in Hr.
      by rewrite Hk in Hr.
  - by apply elem_of_nil in Hk.
Qed.

Lemma foreign_keys_hold_refs (d : db) :
  foreign_keys_hold d ↔
  ∀ (t : table) (r : row_of t) (k : uuid),
    r ∈ rows d t → k ∈ refs t r → k ∈ Profile.id <$> db_profiles d.
Proof.
  split.
  - intros Hfk t r k Hr Hk. destruct (decide (t = profiles)) as [-> | Ht].
    + by apply elem_of_nil in Hk.
    + apply (proj1 (foreign_keys_refs t d r Ht)); [|done]. by apply Hfk.
  - intros Hall t r Ht Hr. apply (foreign_keys_refs t d r Ht).
    intros k Hk. by apply (Hall t r k).
Qed.

Lemma null_if_Some (gone : list uuid) (o : option uuid) (k : uuid) :
  null_if gone o = Some k ↔ o = Some k ∧ k ∉ gone.
Proof.
  destruct o as [k'|]; cbn; [|split; [done | by intros [? _]]].
  case_bool_decide as Hin.
  - split; [done | intros [[= ->] ?]; done].
  - split; [by intros [= ->] | by intros [? _]].
Qed.

(** After the cascade, what a row refers to was referred to before and is
    not among the deleted profiles. *)
Lemma on_delete_profiles_refs (d : db) (gone : list uuid) (t : table)
    (r' : row_of t) (k : uuid) :
  r' ∈ rows (on_delete_profiles d gone) t → k ∈ refs t r' →
  ∃ r, r ∈ rows d t ∧ k ∈ refs t r ∧ k ∉ gone.
Proof.
  intros Hr' Hk. destruct t; cbn in Hr', Hk.
  - by apply elem_of_nil in Hk.
  - apply elem_of_filter_bool in Hr' as [Hr' Hkeep%bool_decide_eq_true].
    apply list_elem_of_singleton in Hk as ->. exists r'.
    split; [done|]. split; [by left | done].
  - apply elem_of_filter_bool in Hr' as [Hr' Hkeep%bool_decide_eq_true].
    apply list_elem_of_singleton in Hk as ->. exists r'.
    split; [done|]. split; [by left | done].
  - apply elem_of_filter_bool in Hr' as [Hr' Hkeep%bool_decide_eq_true].
    apply list_elem_of_singleton in Hk as ->. exists r'.
    split; [done|]. split; [by left | done].
  - apply list_elem_of_fmap in Hr' as (r & -> & Hr).
    apply elem_of_filter_bool in Hr as [Hr Hkeep%bool_decide_eq_true].
    exists r. split; [done|]. cbn in Hk.
    apply elem_of_cons in Hk as [-> | Hk%elem_of_option_list%null_if_Some].
    + split; [by left | done].
    + destruct Hk as [Hs Hk]. split; [|done]. cbn. right.
      by apply elem_of_option_list.
  - apply list_elem_of_fmap in Hr' as (r & -> & Hr).
    apply elem_of_filter_bool in Hr as [Hr Hkeep%bool_decide_eq_true].
    exists r. split; [done|]. cbn in Hk.
    apply elem_of_cons in Hk as [-> | Hk%elem_of_option_list%null_if_Some].
    + split; [by left | done].
    + destruct Hk as [Hs Hk]. split; [|done]. cbn. right.
      by apply elem_of_option_list.
  - by apply elem_of_nil in Hk.
Qed.

Lemma kept_ids {A B} (g : A → B) (f : A → bool) (l : list A) (k : B) :
  k ∈ g <$> l → k ∉ g <$> List.filter f l →
  k ∈ g <$> List.filter (λ x, negb (f x)) l.
Proof.
  intros (x & -> & Hx)%list_elem_of_fmap Hgone.
  apply list_elem_of_fmap_2, elem_of_filter_bool. split; [done|].
  destruct (f x) eqn:Hfx; [|done]. destruct Hgone.
  apply list_elem_of_fmap_2, elem_of_filter_bool. by split.
Qed.

(** An UPDATE on profiles keeps the id of every profile that is referred
    to. *)
Lemma update_profiles_keeps_referenced (d : db) (uid : option uuid)
    (set : Profile.t → Profile.t) (cond : option (Profile.t → bool))
    (l : list Profile.t) (ch : list (Profile.t * Profile.t)) (k : uuid) :
  update_rows profiles d uid set cond [] (db_profiles d) [] = Ok (l, ch) →
  after_update profiles d ch = Ok () →
  k ∈ Profile.id <$> db_profiles d → referencing d k ≠ None →
  k ∈ Profile.id <$> l.
Proof.
  intros Hrun Hafter (p & -> & Hp)%list_elem_of_fmap Href.
  destruct (update_rows_found profiles d uid set cond _ _ _ p Hrun Hp)
    as [Hl | [Hch Hl]].
  - by apply list_elem_of_fmap_2.
  - destruct (proj1 (after_update_Ok profiles d ch) Hafter _ Hch) as [Hku _].
    cbn in Hku. case_bool_decide as Hsame.
    + rewrite Hsame. by apply list_elem_of_fmap_2.
    + by destruct (referencing d (Profile.id p)).
Qed.

Lemma evaluate_keeps_profile_references {t : table} (q : query t) (d : db)
    (uid : option uuid) :
  foreign_keys_hold d → foreign_keys_hold (snd (evaluate q d uid)).
Proof.
  intros Hfk0. pose proof (proj1 (foreign_keys_hold_refs d) Hfk0) as Hfk.
  apply foreign_keys_hold_refs. intros t' r' k Hr' Hk.
  destruct q as [cond | new | set cond | cond].
  - by apply (Hfk t' r').
  - cbn [evaluate] in *.
    destruct (column_types t new) as [[]|]; [|by apply (Hfk t' r')].
    destruct (writable _ _ _ _ _); [|by apply (Hfk t' r')].
    destruct (insert_row t d new) as [d'|] eqn:Hins;
      [|by apply (Hfk t' r')].
    apply insert_row_Ok in Hins as [Hrc ->]. cbn [snd] in *.
    assert (k ∈ Profile.id <$> db_profiles d) as Hin.
    { destruct (decide (t = t')) as [<- | Hne].
      - rewrite rows_set_rows in Hr'.
        apply elem_of_app in Hr' as [Hr' | ->%list_elem_of_singleton].
        + by apply (Hfk t r').
        + destruct (decide (t = profiles)) as [-> | Ht];
            [by apply elem_of_nil in Hk|].
          apply row_constraints_Ok in Hrc as (_ & _ & Hfkn).
          by apply (proj1 (foreign_keys_refs t d new Ht)).
      - rewrite rows_set_rows_ne in Hr' by done. by apply (Hfk t' r'). }
    destruct t; try done. cbn. rewrite fmap_app. apply elem_of_app. by left.
  - destruct (evaluate_update t d uid set cond)
      as [(l & ch & Hrun & Hafter & Heval) | Heval]; rewrite Heval in *;
      [|by apply (Hfk t' r')].
    cbn [snd] in *. destruct (decide (t = profiles)) as [-> | Ht].
    + destruct (decide (t' = profiles)) as [-> | Ht'];
        [by apply elem_of_nil in Hk|].
      rewrite rows_set_rows_ne in Hr' by done. cbn [set_rows db_profiles].
      apply (update_profiles_keeps_referenced d uid set cond l ch k Hrun
               Hafter).
      * by apply (Hfk t' r').
      * by apply (referencing_refs t' d r').
    + rewrite db_profiles_set_rows by done.
      destruct (decide (t = t')) as [<- | Hne].
      * rewrite rows_set_rows in Hr'.
        destruct (update_rows_elem t d uid set cond _ _ _ r' Hrun Hr')
          as [Hold | [r Hch]].
        -- by apply (Hfk t r').
        -- destruct (proj1 (after_update_Ok t d ch) Hafter _ Hch)
             as [_ Hfkn].
           by apply (proj1 (foreign_keys_refs t d r' Ht)).
      * rewrite rows_set_rows_ne in Hr' by done. by apply (Hfk t' r').
  - cbn [evaluate snd] in *. destruct (decide (t = profiles)) as [-> | Ht].
    + cbn [on_delete] in *.
      destruct (on_delete_profiles_refs _ _ _ _ _ Hr' Hk)
        as (r & Hr & Hkr & Hgone).
      destruct (decide (t' = profiles)) as [-> | Ht'];
        [by apply elem_of_nil in Hkr|].
      rewrite rows_set_rows_ne in Hr by done.
      cbn [on_delete_profiles set_rows db_profiles].
      apply kept_ids; [|done]. by apply (Hfk t' r).
    + assert (on_delete t (set_rows d t
                (List.filter (λ r, negb (reached t Delete d uid cond r))
                   (rows d t)))
                (pkey t <$> List.filter (reached t Delete d uid cond)
                   (rows d t)) =
              set_rows d t
                (List.filter (λ r, negb (reached t Delete d uid cond r))
                   (rows d t))) as Hid by (by destruct t).
      rewrite Hid in *. rewrite db_profiles_set_rows by done.
      destruct (decide (t = t')) as [<- | Hne].
      * rewrite rows_set_rows in Hr'.
        apply elem_of_filter_bool in Hr' as [Hr' _]. by apply (Hfk t r').
      * rewrite rows_set_rows_ne in Hr' by done. by apply (Hfk t' r').
Qed.

Lemma auth_users_evaluate {t : table} (q : query t) (d : db)
    (uid : option uuid) :
  auth_users (snd (evaluate q d uid)) = auth_users d.
Proof.
  destruct q as [cond | new | set cond | cond].
  - done.
  - cbn [evaluate]. destruct (column_types t new) as [[]|]; [|done].
    destruct (writable _ _ _ _ _); [|done].
    destruct (insert_row t d new) as [d'|] eqn:Hins; [|done].
    apply insert_row_Ok in Hins as [_ ->]. by destruct t.
  - destruct (evaluate_update t d uid set cond)
      as [(l & ch & _ & _ & ->) | ->]; [|done].
    by destruct t.
  - by destruct t.
Qed.

Lemma evaluate_keeps_id_fkey {t : table} (q : query t) (d : db)
    (uid : option uuid) :
  profiles_id_fkey d → profiles_id_fkey (snd (evaluate q d uid)).
Proof.
  unfold profiles_id_fkey. intros Hfk p. rewrite auth_users_evaluate.
  destruct (decide (t = profiles)) as [-> | Hne].
  - destruct q as [cond | new | set cond | cond].
    + apply Hfk.
    + cbn [evaluate column_types].
      destruct (writable _ _ _ _ _); [|apply Hfk].
      destruct (insert_row profiles d new) as [d'|] eqn:Hins; [|apply Hfk].
      apply insert_row_Ok in Hins as [Hrc ->]. cbn [snd set_rows db_profiles].
      intros [Hp | ->%list_elem_of_singleton]%elem_of_app; [by apply Hfk|].
      apply row_constraints_Ok in Hrc as (_ & _ & Hid).
      by apply require_Ok, bool_decide_eq_true in Hid.
    + destruct (evaluate_update profiles d uid set cond)
        as [(l & ch & Hrun & Hafter & ->) | ->]; [|apply Hfk].
      cbn [snd set_rows db_profiles]. intros Hp.
      destruct (update_rows_elem profiles d uid set cond _ _ _ p Hrun Hp)
        as [Hold | [r Hch]]; [by apply Hfk|].
      destruct (proj1 (after_update_Ok profiles d ch) Hafter _ Hch)
        as [_ Hid].
      by apply require_Ok, bool_decide_eq_true in Hid.
    + cbn [evaluate snd on_delete on_delete_profiles set_rows db_profiles].
      intros [Hp _]%elem_of_filter_bool. by apply Hfk.
  - change (db_profiles (snd (evaluate q d uid)))
      with (rows (snd (evaluate q d uid)) profiles).
    rewrite evaluate_other_table by done. apply Hfk.
Qed.

(** X18. Foreign keys are an invariant: when every stored row refers to
    profiles that exist and every profile to an identity that exists, the
    same holds after any command of any caller on any table, whether the
    command succeeds or fails. *)
Theorem run_keeps_foreign_keys {t : table} (q : query t) (d : db)
    (uid : option uuid) :
  foreign_keys_hold d → profiles_id_fkey d →
  foreign_keys_hold (snd (run q d uid)) ∧
  profiles_id_fkey (snd (run q d uid)).
Proof.
  intros Hfk Hid. split.
  - apply run_keeps; [done|]. by apply evaluate_keeps_profile_references.
  - apply run_keeps; [done|]. by apply evaluate_keeps_id_fkey.
Qed.

Lemma sample_checks_hold : checks_hold Sample.hospital.
Proof.
  intros t r Hr. destruct t; cbn in Hr;
    repeat (apply elem_of_cons in Hr as [-> | Hr]; [reflexivity|]);
    by apply elem_of_nil in Hr.
Qed.

Lemma sample_pkeys_unique : pkeys_unique Sample.hospital.
Proof. intros t. destruct t; cbn; compute_done. Qed.

Lemma sample_foreign_keys_hold : foreign_keys_hold Sample.hospital.
Proof.
  intros t r Ht Hr. destruct t; cbn in Hr;
    repeat (apply elem_of_cons in Hr as [-> | Hr]; [reflexivity|]);
    by apply elem_of_nil in Hr.
Qed.

(** bob enters his details: the stored cases still meet their CHECK
    constraints. *)
Lemma run_keeps_checks_witness :
  let d' := snd (run (INSERT (t:=surgeon_details) Sample.bob_details)
                   Sample.hospital (Some 2%N)) in
  db_surgeon_details d' = [Sample.bob_details] ∧
  check_constraints surgical_cases Sample.case_dave = Ok ().
Proof.
  intros d'. split; [reflexivity|].
  apply (run_keeps_checks (INSERT (t:=surgeon_details) Sample.bob_details)
           Sample.hospital (Some 2%N) sample_checks_hold surgical_cases).
  right. left.
Defined.

(** bob enters his details a second time: the command is refused, and
    surgeon_details keeps its primary key. *)
Lemma run_keeps_unique_keys_witness :
  let q := INSERT (t:=surgeon_details) Sample.bob_details in
  let d' := snd (run q (snd (run q Sample.hospital (Some 2%N))) (Some 2%N)) in
  fst (run q (snd (run q Sample.hospital (Some 2%N))) (Some 2%N)) =
    failed (unique_violation "surgeon_details_pkey") ∧
  NoDup (SurgeonDetails.user_id <$> db_surgeon_details d').
Proof.
  intros q d'. split; [reflexivity|].
  assert (pkeys_unique (snd (run q Sample.hospital (Some 2%N))) ∧
          profiles_email_key (snd (run q Sample.hospital (Some 2%N))))
    as [Hpk Hemail].
  { apply run_keeps_unique_keys;
      [exact sample_pkeys_unique | exact sample_profiles_email_key]. }
  exact (proj1 (run_keeps_unique_keys q _ (Some 2%N) Hpk Hemail)
           surgeon_details).
Defined.

(** A caller with the id 5, who has no profile, enters details: the command
    is refused by the foreign key, and the details that are stored refer to
    profiles. *)
Lemma run_keeps_foreign_keys_witness :
  let new := SurgeonDetails.mk 5 "Cardiology" "HOSP002" 3 None None None
               None None in
  let q := INSERT (t:=surgeon_details) new in
  fst (run q Sample.clinic (Some 5%N)) =
    failed (foreign_key_violation "surgeon_details_user_id_fkey") ∧
  foreign_keys surgeon_details (snd (run q Sample.clinic (Some 5%N)))
    Sample.bob_details = Ok ().
Proof.
  intros new q. split; [reflexivity|].
  assert (foreign_keys_hold Sample.clinic) as Hfk.
  { intros t r Ht Hr. destruct t; cbn in Hr;
      repeat (apply elem_of_cons in Hr as [-> | Hr]; [reflexivity|]);
      by apply elem_of_nil in Hr. }
  assert (profiles_id_fkey Sample.clinic) as Hid
    by exact sample_profiles_id_fkey.
  apply (proj1 (run_keeps_foreign_keys q Sample.clinic (Some 5%N) Hfk Hid)
           surgeon_details); [discriminate|].
  by left.
Defined.
(** * The signup trigger, in full *)

Lemma check_constraints_profiles (p : Profile.t) :
  check_constraints profiles p = Ok () ↔ Profile.role p ∈ allowed_roles.
Proof.
  cbn [check_constraints]. unfold role_check.
  rewrite sql_in_Some, require_Ok. cbn [check_passes].
  case_bool_decide; split; done.
Qed.

Lemma unique_constraints_profiles (others : list Profile.t) (p : Profile.t) :
  unique_constraints profiles others p = Ok () ↔
  (Profile.id p ∉ Profile.id <$> others) ∧
  (Profile.email p ∉ Profile.email <$> others).
Proof.
  cbn. destruct (decide (Profile.id p ∈ Profile.id <$> others)) as [Hin | Hnot].
  - rewrite (bool_decide_eq_false_2 (Profile.id p ∉ Profile.id <$> others))
      by (intros Hn; by apply Hn).
    cbn. split; [done | by intros [? _]].
  - rewrite (bool_decide_eq_true_2 _ Hnot). cbn.
    rewrite require_Ok, bool_decide_eq_true. tauto.
Qed.

(** X19. When signing up succeeds: creating an identity succeeds exactly when
    its id is new, it has an email, the role that the trigger computes
    (metadata role, or 'patient' when the metadata is NULL, has no role or
    has a JSON null there) is one of 'patient', 'surgeon' and 'admin', and no
    profile has its id or its email yet; the database then holds the
    identity and the profile of the trigger's VALUES clause, and nothing else
    has changed. *)
Theorem create_user_succeeds_iff (d d' : db) (NEW : AuthUser.t)
    (now : timestamptz) :
  create_user d NEW now = Ok d' ↔
  ∃ email,
    AuthUser.email NEW = Some email ∧
    (AuthUser.id NEW ∉ AuthUser.id <$> auth_users d) ∧
    Profile.role (provisioned NEW email now) ∈ allowed_roles ∧
    (AuthUser.id NEW ∉ Profile.id <$> db_profiles d) ∧
    (email ∉ Profile.email <$> db_profiles d) ∧
    d' = signed_up d NEW (provisioned NEW email now).
Proof.
  unfold create_user.
  destruct (decide (AuthUser.id NEW ∈ AuthUser.id <$> auth_users d))
    as [Hold | Hnew].
  - rewrite (bool_decide_eq_false_2
               (AuthUser.id NEW ∉ AuthUser.id <$> auth_users d))
      by (intros Hn; by apply Hn).
    cbn. split; [done | by intros (? & _ & ? & _)].
  - rewrite (bool_decide_eq_true_2 _ Hnew). cbn [require mbind result_bind].
    unfold handle_new_user.
    destruct (AuthUser.email NEW) as [email|];
      [|split; [done | by intros (? & ? & _)]].
    fold (provisioned NEW email now).
    rewrite insert_row_Ok, row_constraints_Ok, check_constraints_profiles,
      unique_constraints_profiles.
    cbn [rows db_profiles foreign_keys auth_users].
    rewrite require_Ok, bool_decide_eq_true.
    assert (Profile.id (provisioned NEW email now)
            ∈ AuthUser.id <$> auth_users d ++ [NEW]) as Hfk.
    { rewrite fmap_app. apply elem_of_app. right. by left. }
    split.
    + intros ((Hrole & [Hid Hemail] & _) & ->). by exists email.
    + intros (email' & [= <-] & _ & Hrole & Hid & Hemail & ->). done.
Qed.

(** dave has no metadata at all. *)
Example create_user_null_metadata :
  create_user Sample.empty Sample.dave 0 =
  Ok (signed_up Sample.empty Sample.dave
        (Profile.mk 4 "dave@x.com" "Unknown User" "patient" None
           (Some 0%Z) (Some 0%Z))).
Proof. vm_compute. reflexivity. Qed.

(** X20. Signing up keeps the database well formed: when primary keys and
    profile emails are unique, CHECK constraints hold and foreign keys find
    their rows, the same is true after the creation of an identity, whether
    it succeeded or was rolled back. *)
Theorem create_user_keeps_invariants (d : db) (NEW : AuthUser.t)
    (now : timestamptz) :
  pkeys_unique d → profiles_email_key d → checks_hold d →
  foreign_keys_hold d → profiles_id_fkey d →
  pkeys_unique (database_after d (create_user d NEW now)) ∧
  profiles_email_key (database_after d (create_user d NEW now)) ∧
  checks_hold (database_after d (create_user d NEW now)) ∧
  foreign_keys_hold (database_after d (create_user d NEW now)) ∧
  profiles_id_fkey (database_after d (create_user d NEW now)).
Proof.
  intros Hpk Hemail Hchecks Hfk Hid.
  destruct (create_user d NEW now) as [d'|] eqn:Hcreate; [|done].
  unfold create_user in Hcreate.
  destruct (require _ _) as [[]|]; [|done]. cbn [mbind result_bind] in Hcreate.
  unfold handle_new_user in Hcreate.
  destruct (AuthUser.email NEW) as [email|]; [|done].
  fold (provisioned NEW email now) in Hcreate.
  apply insert_row_Ok in Hcreate as [Hrc Hd'].
  apply row_constraints_Ok in Hrc
    as (Hrole%check_constraints_profiles
        & [Hidnew Hemailnew]%unique_constraints_profiles & _).
  cbn [rows db_profiles] in Hidnew, Hemailnew.
  subst d'. cbn [database_after]. repeat split.
  - intros t.
    destruct t;
      [| exact (Hpk patient_details) | exact (Hpk surgeon_details)
       | exact (Hpk vital_signs) | exact (Hpk surgical_history)
       | exact (Hpk surgical_cases) | exact (Hpk historical_surgical_data)].
    cbn. apply NoDup_fmap_snoc; [apply (Hpk profiles) | done].
  - unfold profiles_email_key. cbn. by apply NoDup_fmap_snoc.
  - intros t r Hr. destruct t; try (by apply (Hchecks _ r Hr)).
    cbn in Hr. apply elem_of_app in Hr as [Hr | ->%list_elem_of_singleton].
    + by apply Hchecks.
    + by apply check_constraints_profiles.
  - apply foreign_keys_hold_refs. intros t r k Hr Hk.
    assert (k ∈ Profile.id <$> db_profiles d) as Hin.
    { destruct t; try (by apply elem_of_nil in Hk);
        by apply (proj1 (foreign_keys_hold_refs d) Hfk _ r). }
    cbn. rewrite fmap_app. apply elem_of_app. by left.
  - intros p. cbn. rewrite fmap_app.
    intros [Hp | ->%list_elem_of_singleton]%elem_of_app; apply elem_of_app.
    + left. by apply Hid.
    + right. by left.
Qed.

(** frank signs up at the hospital. *)
Lemma create_user_keeps_invariants_witness :
  let d' := database_after Sample.hospital
              (create_user Sample.hospital Sample.frank 7) in
  Profile.id <$> db_profiles d' = [1; 2; 3; 4; 6]%N ∧
  NoDup (Profile.email <$> db_profiles d').
Proof.
  intros d'. split; [vm_compute; reflexivity|].
  exact (proj1 (proj2 (create_user_keeps_invariants Sample.hospital
                         Sample.frank 7 sample_pkeys_unique
                         sample_profiles_email_key sample_checks_hold
                         sample_foreign_keys_hold sample_profiles_id_fkey))).
Defined.
(** * CHECK constraints and NULL *)

(** X21. A NULL priority or season passes its CHECK constraint, and a bad
    priority is reported before a bad status, the constraints being tested in
    the order of their names: a surgical case is accepted exactly when its
    priority is NULL or one of the four and its status is one of the five; a
    row of historical_surgical_data exactly when its season is NULL or one of
    the four. *)
Theorem check_constraints_accept_null (c : SurgicalCase.t)
    (h : HistoricalSurgicalData.t) :
  check_constraints surgical_cases c =
    (let status_checked :=
       if bool_decide (SurgicalCase.status c ∈ ts.SurgicalCase_status)
       then Ok ()
       else Err (check_violation "surgical_cases_status_check") in
     match SurgicalCase.priority c with
     | None => status_checked
     | Some p =>
         if bool_decide (p ∈ ts.SurgicalCase_priority) then status_checked
         else Err (check_violation "surgical_cases_priority_check")
     end) ∧
  check_constraints historical_surgical_data h =
    match HistoricalSurgicalData.season h with
    | None => Ok ()
    | Some s =>
        if bool_decide (s ∈ ts.HistoricalSurgicalData_season) then Ok ()
        else Err (check_violation "historical_surgical_data_season_check")
    end.
Proof.
  split.
  - cbn [check_constraints]. unfold status_check, priority_check.
    rewrite sql_in_Some.
    change ["proposed"; "scheduled"; "in_progress"; "completed"; "cancelled"]
      with ts.SurgicalCase_status.
    destruct (SurgicalCase.priority c) as [p|].
    + rewrite sql_in_Some.
      change ["low"; "medium"; "high"; "emergency"]
        with ts.SurgicalCase_priority.
      destruct (bool_decide (p ∈ _)); [|done].
      by destruct (bool_decide _).
    + by destruct (bool_decide _).
  - cbn [check_constraints]. unfold season_check.
    destruct (HistoricalSurgicalData.season h) as [s|]; [|done].
    rewrite sql_in_Some.
    change ["spring"; "summer"; "fall"; "winter"]
      with ts.HistoricalSurgicalData_season.
    by destruct (bool_decide _).
Qed.

(** A case whose priority and status are both outside the lists is refused
    for its priority. *)
Example bad_priority_is_reported_first :
  check_constraints surgical_cases
    (SurgicalCase.mk 33 1 None "Bypass" None "postponed" (Some "urgent") None
       None None None) =
  Err (check_violation "surgical_cases_priority_check").
Proof. reflexivity. Qed.

(** X22. The string literal types of the client are the values the database
    accepts: a text is a [Profile.role], a [SurgicalCase.status], a
    [SurgicalCase.priority] or a [HistoricalSurgicalData.season] exactly when
    the CHECK constraint of the column is TRUE for it. *)
Theorem client_types_match_checks (s : text) :
  (s ∈ ts.Profile_role ↔ role_check (Some s) = Some true) ∧
  (s ∈ ts.SurgicalCase_status ↔ status_check (Some s) = Some true) ∧
  (s ∈ ts.SurgicalCase_priority ↔ priority_check (Some s) = Some true) ∧
  (s ∈ ts.HistoricalSurgicalData_season ↔ season_check (Some s) = Some true).
Proof.
  unfold role_check, status_check, priority_check, season_check.
  rewrite !sql_in_Some.
  repeat split; intros H;
    first [ by rewrite bool_decide_eq_true_2
          | injection H as H; by apply bool_decide_eq_true in H ].
Qed.

(** * The dashboard *)

Lemma elem_of_allowed_roles (r : text) :
  r ∈ allowed_roles ↔ r = "patient" ∨ r = "surgeon" ∨ r = "admin".
Proof.
  unfold allowed_roles.
  rewrite !elem_of_cons, elem_of_nil. tauto.
Qed.

Lemma renderContent_known_role (p : Profile.t) (tab : string) :
  Profile.role p ∈ allowed_roles → renderContent (Some p) tab ≠ unknown_role.
Proof.
  intros [Hr | [Hr | Hr]]%elem_of_allowed_roles;
    unfold renderContent, unknown_role; cbn [fmap option_fmap option_map];
    rewrite Hr; repeat case_bool_decide; simplify_eq; done.
Qed.

(** X23. The "Unknown Role" screen and the CHECK constraint on the role:
    [renderContent] shows "Unknown Role / Please contact support" exactly
    when there is no profile or its role is none of 'patient', 'surgeon' and
    'admin', the three values that the column accepts; the tab makes no
    difference. *)
Theorem renderContent_unknown_role_iff (profile : option Profile.t)
    (tab : string) :
  renderContent profile tab = unknown_role ↔
  ∀ p, profile = Some p → check_constraints profiles p ≠ Ok ().
Proof.
  split.
  - intros Hunknown p -> Hcheck%check_constraints_profiles.
    by apply (renderContent_known_role p tab).
  - intros Hno. destruct profile as [p|]; [|done].
    assert (Profile.role p ∉ allowed_roles) as Hrole.
    { intros Hin%check_constraints_profiles. by apply (Hno p). }
    rewrite elem_of_allowed_roles in Hrole.
    unfold renderContent. cbn [fmap option_fmap option_map].
    rewrite !bool_decide_eq_false_2; [done | | |]; intros [= Heq]; tauto.
Qed.

(** X24. Each role has its own screens: when [renderContent] shows the same
    thing for two profiles, whatever the tabs, and the role of one of them
    is 'patient', 'surgeon' or 'admin', the two profiles have the same
    role. *)
Theorem renderContent_separates_roles (p1 p2 : Profile.t)
    (tab1 tab2 : string) :
  Profile.role p1 ∈ allowed_roles →
  renderContent (Some p1) tab1 = renderContent (Some p2) tab2 →
  Profile.role p1 = Profile.role p2.
Proof.
  intros [Hr | [Hr | Hr]]%elem_of_allowed_roles; rewrite Hr;
    unfold renderContent; cbn [fmap option_fmap option_map]; rewrite Hr;
    repeat case_bool_decide; simplify_eq; done.
Qed.

Lemma renderContent_separates_roles_witness :
  Profile.role Sample.alice_profile = Profile.role Sample.dave_profile.
Proof.
  apply (renderContent_separates_roles Sample.alice_profile
           Sample.dave_profile "find-surgeon" "find-surgeon");
    [compute_done | reflexivity].
Defined.

(** X25. A tab that the switch of the role does not name falls back: for a
    patient and for an admin to what the tab 'dashboard' shows, for a surgeon
    to a placeholder with the title of the dashboard and another text. *)
Theorem renderContent_fallback (p : Profile.t) (tab : string) :
  tab ∉ tabs_of (Profile.role p) →
  renderContent (Some p) tab =
  if bool_decide (Profile.role p = "surgeon")
  then notice "Surgeon Dashboard" "Coming Soon"
  else renderContent (Some p) "dashboard".
Proof.
  unfold tabs_of, renderContent. cbn [fmap option_fmap option_map].
  repeat case_bool_decide; simplify_eq; try done; try congruence;
    rewrite ?elem_of_cons, ?elem_of_nil; tauto.
Qed.

(** A patient with the tab 'patients' of the surgeons sees the patient
    dashboard. *)
Lemma renderContent_fallback_witness :
  renderContent (Some Sample.alice_profile) "patients" = PatientDashboard.
Proof.
  rewrite (renderContent_fallback Sample.alice_profile "patients")
    by compute_done.
  reflexivity.
Defined.

(** X26. [AuthWrapper] alternates: it starts on the sign-in screen, and
    after [n] uses of the toggle it shows the sign-up screen when [n] is odd
    and the sign-in screen when [n] is even. *)
Theorem AuthWrapper_alternates (n : nat) :
  AuthWrapper (Nat.iter n onToggleMode false) =
  if Nat.odd n then SignUp else SignIn.
Proof.
  induction n as [|n IH]; [done|].
  rewrite Nat.odd_succ, <- Nat.negb_odd. cbn [Nat.iter nat_rect].
  fold (Nat.iter n onToggleMode false).
  destruct (Nat.iter n onToggleMode false), (Nat.odd n); try done;
    cbn in IH; discriminate.
Qed.

(** X27. What is on screen for a profile of the database: while loading the
    spinner and nothing else; without a user or without a profile the
    sign-in or sign-up screen; and for a profile stored in a database whose
    CHECK constraints hold, never "Unknown Role". *)
Theorem AppContent_stored_profile (d : db) (user : bool)
    (profile : option Profile.t) (loading isSignUp : bool) (tab : string) :
  checks_hold d →
  (∀ p, profile = Some p → p ∈ db_profiles d) →
  AppContent user profile loading isSignUp tab ≠ unknown_role ∧
  (loading = true →
   AppContent user profile loading isSignUp tab = LoadingSpinner "lg") ∧
  (loading = false → user = false ∨ profile = None →
   AppContent user profile loading isSignUp tab = AuthWrapper isSignUp).
Proof.
  intros Hchecks Hstored. split; [|split].
  - unfold AppContent. destruct loading; [done|].
    destruct user, profile as [p|]; cbn; try (by destruct isSignUp).
    apply renderContent_known_role, check_constraints_profiles.
    apply (Hchecks profiles). by apply Hstored.
  - by intros ->.
  - intros -> [-> | ->]; [done|]. unfold AppContent. by destruct user.
Qed.

(** bob's dashboard is loading. *)
Lemma AppContent_stored_profile_witness :
  AppContent true (Some Sample.bob_profile) true false "schedule"
  = LoadingSpinner "lg".
Proof.
  apply (AppContent_stored_profile Sample.hospital true
           (Some Sample.bob_profile) true false "schedule"
           sample_checks_hold); [|reflexivity].
  intros p [= <-]. right. left.
Defined.
